(** * ai-mirror-bot: per-user conversational memory of [bot.py]

    A shallow embedding of the Telegram relay bot of [src/bot.py]: the two
    process-wide dictionaries [USER_SUMMARY] and [USER_TURNS], the context
    builder [_get_history], the command handlers, the compression step
    [_update_memory] and the message handler [handle_message].

    Python values are modelled as follows.
    - [str] is a sequence of Unicode code points ([list N]); [str.strip()]
      removes the code points for which [str.isspace()] holds.
    - [int] user identifiers are [Z]; the dictionaries are [gmap Z _].
    - [float] temperatures are binary64 floats ([PrimFloat.float]).
    - Exceptions, dictionary mutation and the calls that leave the process
      (completion engine, chat transport, logger) live in a state-and-error
      monad over a [world]: the two dictionaries plus the trace of outside
      calls made so far. *)

From Stdlib Require Import ZArith NArith List Ascii String PrimFloat.
From stdpp Require Import gmap strings list.

(** ** Python strings *)

Abbreviation str := (list N).

Module Py.

Local Open Scope N_scope.

(** [str.isspace()] on one code point: the ASCII table of CPython
    ([\t \n \v \f \r], [0x1C..0x1F], space) and the Unicode White_Space /
    bidirectional-separator code points above it. *)
Definition isspace (c : N) : bool :=
  ((9 <=? c) && (c <=? 13)) || ((28 <=? c) && (c <=? 32))
  || (c =? 133) || (c =? 160) || (c =? 5760)
  || ((8192 <=? c) && (c <=? 8202))
  || (c =? 8232) || (c =? 8233) || (c =? 8239) || (c =? 8287) || (c =? 12288).

Fixpoint lstrip (s : str) : str :=
  match s with
  | c :: s' => if isspace c then lstrip s' else s
  | [] => []
  end.

Definition rstrip (s : str) : str := rev (lstrip (rev s)).

(** [s.strip()] *)
Definition strip (s : str) : str := rstrip (lstrip s).

(** Truth value of a string: non-empty. *)
Definition truthy (s : str) : bool :=
  match s with [] => false | _ :: _ => true end.

(** [l[-n:]] for a positive literal [n]; as in Python, [l[-0:]] is [l]. *)
Definition slice_last {A} (n : nat) (l : list A) : list A :=
  match n with
  | O => l
  | S _ => drop (length l - n) l
  end.

(** Source literals are written as UTF-8 text and decoded to code points. *)
Fixpoint utf8_decode (bs : list N) : str :=
  match bs with
  | [] => []
  | b :: r =>
    if b <? 128 then b :: utf8_decode r
    else if b <? 224 then
      match r with
      | c1 :: r1 =>
        N.lor (N.shiftl (N.land b 31) 6) (N.land c1 63) :: utf8_decode r1
      | _ => []
      end
    else if b <? 240 then
      match r with
      | c1 :: c2 :: r2 =>
        N.lor (N.shiftl (N.land b 15) 12)
          (N.lor (N.shiftl (N.land c1 63) 6) (N.land c2 63)) :: utf8_decode r2
      | _ => []
      end
    else
      match r with
      | c1 :: c2 :: c3 :: r3 =>
        N.lor (N.shiftl (N.land b 7) 18)
          (N.lor (N.shiftl (N.land c1 63) 12)
             (N.lor (N.shiftl (N.land c2 63) 6) (N.land c3 63))) :: utf8_decode r3
      | _ => []
      end
  end.

Definition lit (s : string) : str :=
  utf8_decode (map N_of_ascii (list_ascii_of_string s)).

Definition nl : str := [10].
Definition dquote : str := [34].

End Py.

Import Py.

(** ** Messages, requests and the outside world *)

(** The [role] strings used by the program: ["system"], ["user"],
    ["assistant"]. *)
Inductive role := system | user | assistant.

(** A stored turn is the tuple [(role, content)]. *)
Abbreviation turn := (role * str)%type.

(** A chat message [{"role": r, "content": c}]. *)
Record message := Message { msg_role : role; content : str }.

(** Keyword arguments of [client.chat.completions.create]. *)
Record request := Request {
  model : str;
  messages : list message;
  temperature : float
}.

(** Exceptions (all of them subclasses of [Exception]). *)
Inductive exn :=
| IndexError
| AttributeError
| KeyError (key : Z)
| RuntimeError (msg : str)
| ValueError (msg : str)
| APIError (status : N).

(** What the completion engine does with a request: it raises, or returns a
    response whose [choices] each carry an optional [message.content]. *)
Inductive completion :=
| Fails (e : exn)
| Response (choices : list (option str)).

Record reply_keyboard := ReplyKeyboardMarkup {
  keyboard : list (list str);
  resize_keyboard : bool
}.

(** An inbound update as the handlers read it: [update.effective_user.id]
    and [update.message.text], which may be [None]. *)
Record update := Update {
  effective_user : Z;
  message_text : option str
}.

(** Calls that leave the process, in the order they are made. *)
Inductive event :=
| Completion (r : request)
| ReplyText (user_id : Z) (text : str) (reply_markup : reply_keyboard)
| LogWarning (e : exn).

Record world := World {
  USER_SUMMARY : gmap Z str;
  USER_TURNS : gmap Z (list turn);
  trace : list event
}.

Definition empty_world : world := World ∅ ∅ [].

(** ** The state-and-exception monad *)

Inductive result (A : Type) :=
| Ok (a : A)
| Raised (e : exn).
Arguments Ok {A} a.
Arguments Raised {A} e.

Definition M (A : Type) : Type := world → result A * world.

#[global] Instance M_ret : MRet M := λ A a w, (Ok a, w).

#[global] Instance M_bind : MBind M := λ A B f m w,
  match m w with
  | (Ok a, w') => f a w'
  | (Raised e, w') => (Raised e, w')
  end.

Definition raise {A} (e : exn) : M A := λ w, (Raised e, w).

(** [try: body except Exception as e: handler(e)] *)
Definition try_except (body : M unit) (handler : exn → M unit) : M unit := λ w,
  match body w with
  | (Ok a, w') => (Ok a, w')
  | (Raised e, w') => handler e w'
  end.

Definition gets {A} (f : world → A) : M A := λ w, (Ok (f w), w).

Definition emit (ev : event) : M unit := λ w,
  (Ok tt, World (USER_SUMMARY w) (USER_TURNS w) (trace w ++ [ev])).

(** [USER_SUMMARY[k] = v] *)
Definition summary_setitem (k : Z) (v : str) : M unit := λ w,
  (Ok tt, World (<[k := v]> (USER_SUMMARY w)) (USER_TURNS w) (trace w)).

(** [USER_SUMMARY.pop(k, None)] *)
Definition summary_pop (k : Z) : M unit := λ w,
  (Ok tt, World (delete k (USER_SUMMARY w)) (USER_TURNS w) (trace w)).

(** [USER_TURNS[k] = v] *)
Definition turns_setitem (k : Z) (v : list turn) : M unit := λ w,
  (Ok tt, World (USER_SUMMARY w) (<[k := v]> (USER_TURNS w)) (trace w)).

(** [USER_TURNS[k]], raising [KeyError] on a missing key. *)
Definition turns_getitem (k : Z) : M (list turn) := λ w,
  match USER_TURNS w !! k with
  | Some v => (Ok v, w)
  | None => (Raised (KeyError k), w)
  end.

(** [USER_TURNS.setdefault(k, [])]: the stored list, inserted when absent. *)
Definition turns_setdefault (k : Z) : M (list turn) := λ w,
  match USER_TURNS w !! k with
  | Some v => (Ok v, w)
  | None => (Ok [], World (USER_SUMMARY w) (<[k := []]> (USER_TURNS w)) (trace w))
  end.

(** [USER_TURNS.pop(k, None)] *)
Definition turns_pop (k : Z) : M unit := λ w,
  (Ok tt, World (USER_SUMMARY w) (delete k (USER_TURNS w)) (trace w)).

(** ** Constants of the program *)

Definition MAX_TURNS : nat := 8.

Definition SYSTEM_PROMPT : str :=
  concat (map (λ l, l ++ nl) [
    lit "Ты AI-MIRROR.";
    lit "Твоя функция — не утешать и не давать советов, а отражать структуру мышления.";
    [];
    lit "Правила:";
    lit "- Не давай психологической поп-терминологии и " ++ dquote
      ++ lit "успокаивания" ++ dquote ++ lit ".";
    lit "- Не говори человеку, что делать. Не лечи. Не ставь диагнозы.";
    lit "- Делай карту процесса: триггер → эмоция/телесный сигнал → мысль → искажение/паттерн → импульс → действие.";
    lit "- Показывай, где выбор был автоматическим.";
    lit "- Если пользователь просит " ++ dquote ++ lit "что мне делать" ++ dquote
      ++ lit ", отвечай: " ++ dquote
      ++ lit "Я могу отзеркалить варианты и последствия, но решение за тобой."
      ++ dquote;
    lit "- Завершай ответ 1 вопросом на углубление (мягко, но точно)."
  ]).

Definition KEYBOARD : reply_keyboard :=
  ReplyKeyboardMarkup [[lit "/mirror"; lit "/reset"]; [lit "/summary"]] true.

Definition SUMMARY_PREFIX : str := lit "Краткая память пользователя (саммари): ".

Definition COMPRESS_PROMPT : str :=
  lit "Сожми в 5–7 строк: контекст, повторяющиеся паттерны, типовые триггеры. Без советов.".

Set Warnings "-inexact-float".
Definition REPLY_TEMPERATURE : float := 0.3%float.
Definition COMPRESS_TEMPERATURE : float := 0.2%float.
Set Warnings "inexact-float".

(** ** Startup configuration (module level of [bot.py]) *)

(** [a or b] on the results of [os.getenv]: [a] when it is a non-empty
    string, [b] otherwise. *)
Definition py_or (a b : option str) : option str :=
  match a with
  | Some (_ :: _) => a
  | _ => b
  end.

(** The engine client object built by [OpenAI(api_key=...)]. *)
Record openai_client := OpenAIClient { api_key : str }.

(** The module globals set at import: [BOT_TOKEN], [OPENAI_API_KEY],
    [client] and [MODEL]. *)
Record config := Config {
  BOT_TOKEN : str;
  OPENAI_API_KEY : str;
  client : openai_client;
  MODEL : str
}.

Section Startup.

(** The constructor [OpenAI] of the [openai] package, which is not part of
    this repository: given the API key it builds the client, reading the
    process environment on the way (base URL, proxies), and it may raise. *)
Variable OpenAI : gmap string str → str → result openai_client.

(** The module-level statements of lines 24-34: read the environment, raise
    [RuntimeError] when a credential is missing, build the client, read the
    model name. *)
Definition startup (environ : gmap string str) : result config :=
  let bot_token := py_or (environ !! "BOT_TOKEN"%string) (environ !! "TELEGRAM_TOKEN"%string) in
  let openai_api_key := environ !! "OPENAI_API_KEY"%string in
  match bot_token with
  | Some (c :: t) =>
    match openai_api_key with
    | Some (c' :: t') =>
      match OpenAI environ (c' :: t') with
      | Ok cl =>
        Ok (Config (c :: t) (c' :: t') cl
              (default (lit "gpt-4o-mini") (environ !! "OPENAI_MODEL"%string)))
      | Raised e => Raised e
      end
    | _ =>
      Raised (RuntimeError
        (lit "Missing OPENAI_API_KEY. Add it in Render Environment Variables."))
    end
  | _ =>
    Raised (RuntimeError
      (lit "Missing BOT_TOKEN (Telegram token). Add it in Render Environment Variables."))
  end.

End Startup.

(** ** The handlers *)

Section Bot.

(** The configuration read at startup and the completion engine behind
    [client]. *)
Variable cfg : config.
Variable engine : request → completion.

(** [client.chat.completions.create(model=..., messages=..., temperature=...)] *)
Definition chat_completions_create (r : request) : M (list (option str)) :=
  emit (Completion r);;
  match engine r with
  | Fails e => raise e
  | Response choices => mret choices
  end.

(** [resp.choices[0].message.content.strip()] *)
Definition first_content_stripped (choices : list (option str)) : M str :=
  match choices with
  | [] => raise IndexError
  | None :: _ => raise AttributeError
  | Some c :: _ => mret (strip c)
  end.

(** [update.message.reply_text(text, reply_markup=KEYBOARD)] *)
Definition reply_text (upd : update) (text : str) : M unit :=
  emit (ReplyText (effective_user upd) text KEYBOARD).

(** The loop [for role, content in turns: messages.append({...})]. *)
Definition append_turns (messages : list message) (turns : list turn) : list message :=
  foldl (λ acc t, acc ++ [Message t.1 t.2]) messages turns.

Definition _get_history (user_id : Z) : M (list message) :=
  summary ← gets (λ w, default [] (USER_SUMMARY w !! user_id));
  turns ← gets (λ w, default [] (USER_TURNS w !! user_id));
  let messages := [Message system SYSTEM_PROMPT] in
  let messages :=
    if truthy summary
    then messages ++ [Message system (SUMMARY_PREFIX ++ summary)]
    else messages in
  mret (append_turns messages turns).

Definition start (upd : update) : M unit :=
  reply_text upd
    (lit "AI-MIRROR online." ++ nl ++ nl
     ++ lit "Пиши ситуацию — я отзеркалю процесс мышления." ++ nl
     ++ lit "Команды:" ++ nl
     ++ lit "/mirror — режим зеркала (по умолчанию)" ++ nl
     ++ lit "/summary — показать текущую память" ++ nl
     ++ lit "/reset — стереть память" ++ nl).

Definition reset (upd : update) : M unit :=
  let user_id := effective_user upd in
  summary_pop user_id;;
  turns_pop user_id;;
  reply_text upd (lit "Память очищена.").

Definition summary_cmd (upd : update) : M unit :=
  let user_id := effective_user upd in
  summary ← gets (λ w, default (lit "(пока пусто)") (USER_SUMMARY w !! user_id));
  reply_text upd (lit "Текущее саммари:" ++ nl ++ summary).

Definition mirror_cmd (upd : update) : M unit :=
  reply_text upd
    (lit "Ок. Опиши ситуацию 2–10 предложениями: что произошло, что ты чувствуешь, что хочешь сделать.").

Definition _update_memory (user_id : Z) : M unit :=
  turns ← gets (λ w, default [] (USER_TURNS w !! user_id));
  if (length turns <? 10)%nat then mret tt
  else
    let messages :=
      append_turns [Message system COMPRESS_PROMPT] (slice_last 10 turns) in
    resp ← chat_completions_create (Request (MODEL cfg) messages COMPRESS_TEMPERATURE);
    new_summary ← first_content_stripped resp;
    prev ← gets (λ w, default [] (USER_SUMMARY w !! user_id));
    summary_setitem user_id (strip (prev ++ nl ++ new_summary));;
    turns_setitem user_id (slice_last 6 turns).

(** The [try: await _update_memory(user_id) except Exception as e:
    logger.warning(...)] block that ends [handle_message]. *)
Definition update_memory_guarded (user_id : Z) : M unit :=
  try_except (_update_memory user_id) (λ e, emit (LogWarning e)).

(** [USER_TURNS.setdefault(user_id, []).append(("user", text))] followed by
    [USER_TURNS[user_id] = USER_TURNS[user_id][-MAX_TURNS:]]. The list
    stored under the key is the object that [append] mutates. *)
Definition store_user_message (user_id : Z) (text : str) : M unit :=
  l ← turns_setdefault user_id;
  turns_setitem user_id (l ++ [(user, text)]);;
  l ← turns_getitem user_id;
  turns_setitem user_id (slice_last MAX_TURNS l).

(** [USER_TURNS[user_id].append(("assistant", answer))] followed by the
    same trim. *)
Definition store_assistant_message (user_id : Z) (answer : str) : M unit :=
  l ← turns_getitem user_id;
  turns_setitem user_id (l ++ [(assistant, answer)]);;
  l ← turns_getitem user_id;
  turns_setitem user_id (slice_last MAX_TURNS l).

Definition handle_message (upd : update) : M unit :=
  let user_id := effective_user upd in
  let text := strip (default [] (message_text upd)) in
  store_user_message user_id text;;
  messages ← _get_history user_id;
  resp ← chat_completions_create (Request (MODEL cfg) messages REPLY_TEMPERATURE);
  answer ← first_content_stripped resp;
  store_assistant_message user_id answer;;
  reply_text upd answer;;
  update_memory_guarded user_id.

End Bot.

(** ** The dispatcher

    [main] registers the four command handlers and routes every other text
    message to [handle_message]. Updates are processed one at a time; a
    handler that raises leaves its mutations in place and the application
    goes on with the next update. The engine's behaviour may differ from one
    message to the next, so each message comes with its own. *)
Inductive input :=
| CmdStart (upd : update)
| CmdReset (upd : update)
| CmdSummary (upd : update)
| CmdMirror (upd : update)
| Text (upd : update) (engine : request → completion).

Definition dispatch (cfg : config) (i : input) : M unit :=
  match i with
  | CmdStart upd => start upd
  | CmdReset upd => reset upd
  | CmdSummary upd => summary_cmd upd
  | CmdMirror upd => mirror_cmd upd
  | Text upd engine => handle_message cfg engine upd
  end.

Definition step (cfg : config) (w : world) (i : input) : world :=
  (dispatch cfg i w).2.

Definition run (cfg : config) (ins : list input) (w : world) : world :=
  foldl (step cfg) w ins.

(** ** Vocabulary of the statements *)

(** Every code point is whitespace. *)
Definition all_space (s : str) : bool := forallb isspace s.

(** No leading whitespace / no trailing whitespace. *)
Definition starts_clean (s : str) : bool :=
  match s with
  | c :: _ => negb (isspace c)
  | [] => true
  end.

Definition ends_clean (s : str) : bool := starts_clean (rev s).

(** A string that [strip] leaves alone. *)
Definition is_stripped (s : str) : bool := starts_clean s && ends_clean s.

(** The message a stored turn contributes to a request. *)
Definition turn_message (t : turn) : message := Message t.1 t.2.

Definition stored_summary (w : world) (user_id : Z) : str :=
  default [] (USER_SUMMARY w !! user_id).

Definition stored_turns (w : world) (user_id : Z) : list turn :=
  default [] (USER_TURNS w !! user_id).

Definition turn_count (w : world) (user_id : Z) : nat :=
  length (stored_turns w user_id).

(** The context as the specification words it: the instruction message,
    then the summary message when the stored summary is non-empty, then the
    stored turns, oldest first. *)
Definition context_of (w : world) (user_id : Z) : list message :=
  [Message system SYSTEM_PROMPT]
  ++ (if truthy (stored_summary w user_id)
      then [Message system (SUMMARY_PREFIX ++ stored_summary w user_id)]
      else [])
  ++ map turn_message (stored_turns w user_id).

(** World updates. *)
Definition set_turns (w : world) (user_id : Z) (l : list turn) : world :=
  World (USER_SUMMARY w) (<[user_id := l]> (USER_TURNS w)) (trace w).

Definition log (w : world) (ev : event) : world :=
  World (USER_SUMMARY w) (USER_TURNS w) (trace w ++ [ev]).

(** The request of the reply path, built in world [w] for [user_id]. *)
Definition reply_request (cfg : config) (w : world) (user_id : Z) : request :=
  Request (MODEL cfg) (context_of w user_id) REPLY_TEMPERATURE.

(** The request of the compression path for the stored [turns]. *)
Definition compress_request (cfg : config) (turns : list turn) : request :=
  Request (MODEL cfg)
    (Message system COMPRESS_PROMPT :: map turn_message (slice_last 10 turns))
    COMPRESS_TEMPERATURE.

(** The text the program extracts from a completion, if it can. *)
Definition extracted (c : completion) : result str :=
  match c with
  | Fails e => Raised e
  | Response [] => Raised IndexError
  | Response (None :: _) => Raised AttributeError
  | Response (Some s :: _) => Ok (strip s)
  end.

(** The world after the user's text has been stored. *)
Definition after_user (w : world) (upd : update) : world :=
  set_turns w (effective_user upd)
    (slice_last MAX_TURNS
       (stored_turns w (effective_user upd)
        ++ [(user, strip (default [] (message_text upd)))])).

(** The world after the request of the reply path has gone out. *)
Definition after_request (cfg : config) (w : world) (upd : update) : world :=
  log (after_user w upd)
    (Completion (reply_request cfg (after_user w upd) (effective_user upd))).

(** The world after the answer has been stored and delivered. *)
Definition after_answer (cfg : config) (w : world) (upd : update) (answer : str) : world :=
  log (set_turns (after_request cfg w upd) (effective_user upd)
         (slice_last MAX_TURNS
            (stored_turns (after_user w upd) (effective_user upd)
             ++ [(assistant, answer)])))
      (ReplyText (effective_user upd) answer KEYBOARD).

(** The world after [reset]. *)
Definition after_reset (w : world) (upd : update) : world :=
  World (delete (effective_user upd) (USER_SUMMARY w))
        (delete (effective_user upd) (USER_TURNS w))
        (trace w ++ [ReplyText (effective_user upd) (lit "Память очищена.") KEYBOARD]).

(** What holds of every world the dispatcher can reach: no summary is
    stored, every turn buffer holds at most [MAX_TURNS] entries, and every
    request sent so far went out at the reply temperature. *)
Record reachable_inv (w : world) : Prop := ReachableInv {
  inv_summary : USER_SUMMARY w = ∅;
  inv_turns : ∀ user_id, (turn_count w user_id ≤ MAX_TURNS)%nat;
  inv_trace : ∀ r, Completion r ∈ trace w → temperature r = REPLY_TEMPERATURE
}.

(** An engine that answers every request with the same text. *)
Definition always (s : str) : request → completion := λ _, Response [Some s].

(** An engine that fails every request. *)
Definition broken (e : exn) : request → completion := λ _, Fails e.

(** Temperatures of the requests in a trace, in order. *)
Definition request_temperatures (tr : list event) : list float :=
  omap (λ ev, match ev with Completion r => Some (temperature r) | _ => None end) tr.

(** ** Sample data for the scenarios *)

Definition demo_cfg : config :=
  Config (lit "123456:token") (lit "sk-demo") (OpenAIClient (lit "sk-demo"))
    (lit "gpt-4o-mini").

(** One inbound text from user [1] to which the engine answers [a]. *)
Definition exchange (q a : string) : input :=
  Text (Update 1 (Some (lit q))) (always (lit a)).

Definition five_exchanges : list input :=
  [exchange "A" "B"; exchange "C" "D"; exchange "E" "F";
   exchange "G" "H"; exchange "I" "J"].

Definition ten_turns : list turn :=
  [(user, lit "A"); (assistant, lit "B"); (user, lit "C"); (assistant, lit "D");
   (user, lit "E"); (assistant, lit "F"); (user, lit "G"); (assistant, lit "H");
   (user, lit "I"); (assistant, lit "J")].

(** A store in which user [1] has ten turns and no summary: what the
    compression step would need to find. *)
Definition ten_turn_world : world := World ∅ {[ 1%Z := ten_turns ]} [].

(** An environment variable set to a non-empty value. *)
Definition env_nonempty (environ : gmap string str) (name : string) : bool :=
  match environ !! name with
  | Some (_ :: _) => true
  | _ => false
  end.

(** An environment in which both credentials are set, the bot token to the
    empty string. *)
Definition environ_empty_token : gmap string str :=
  {[ "BOT_TOKEN"%string := []; "OPENAI_API_KEY"%string := lit "sk-demo" ]}.

Definition environ_complete : gmap string str :=
  {[ "TELEGRAM_TOKEN"%string := lit "123456:token";
     "OPENAI_API_KEY"%string := lit "sk-demo" ]}.

(** A constructor that always builds the client. *)
Definition OpenAI_accepting : gmap string str → str → result openai_client :=
  λ _ key, Ok (OpenAIClient key).



(** ** Vocabulary of the further properties *)

(** What the reply path sends for [user_id] once [text] has been stored:
    the instruction message, the summary message when a summary is stored,
    and the trimmed turn buffer ending with the new user turn. *)
Definition reply_messages (w : world) (user_id : Z) (text : str) : list message :=
  [Message system SYSTEM_PROMPT]
  ++ match stored_summary w user_id with
     | [] => []
     | _ :: _ => [Message system (SUMMARY_PREFIX ++ stored_summary w user_id)]
     end
  ++ map (λ t, Message t.1 t.2)
       (slice_last MAX_TURNS (stored_turns w user_id ++ [(user, text)])).

(** The user whose update an input carries. *)
Definition sender (i : input) : Z :=
  match i with
  | CmdStart upd | CmdReset upd | CmdSummary upd | CmdMirror upd | Text upd _ =>
    effective_user upd
  end.

(** The replies of a trace, in order: recipient, text, keyboard. *)
Definition replies (tr : list event) : list (Z * str * reply_keyboard) :=
  omap (λ ev, match ev with
              | ReplyText u text k => Some (u, text, k)
              | _ => None
              end) tr.

(** A text message [qa.1] from user [u] that the engine answers with
    [qa.2]. *)
Definition answered (u : Z) (qa : str * str) : input :=
  Text (Update u (Some qa.1)) (always qa.2).

(** The turns an answered message contributes. *)
Definition exchange_turns (qa : str * str) : list turn :=
  [(user, strip qa.1); (assistant, strip qa.2)].

(** Inputs that are text messages (the ones routed to [handle_message]). *)
Definition is_text (i : input) : bool :=
  match i with
  | Text _ _ => true
  | _ => false
  end.

(** A stored turn as the handlers write them: a user or assistant turn
    whose text is stripped. *)
Definition turn_ok (t : turn) : Prop :=
  t.1 ≠ system ∧ is_stripped t.2 = true.

(** Every stored turn of every user is such a turn. *)
Definition turns_inv (w : world) : Prop :=
  ∀ user_id t, t ∈ stored_turns w user_id → turn_ok t.

(** A request of the reply path in a store without summaries: the configured
    model, the reply temperature, the instruction message and then between
    one and [MAX_TURNS] turns, the last of which is a user turn. *)
Definition request_ok (cfg : config) (r : request) : Prop :=
  model r = MODEL cfg
  ∧ temperature r = REPLY_TEMPERATURE
  ∧ ∃ pre text,
      messages r
      = Message system SYSTEM_PROMPT :: map (λ t, Message t.1 t.2) (pre ++ [(user, text)])
      ∧ (length pre < MAX_TURNS)%nat
      ∧ Forall turn_ok pre
      ∧ is_stripped text = true.

Definition requests_inv (cfg : config) (w : world) : Prop :=
  ∀ r, Completion r ∈ trace w → request_ok cfg r.

(** ** Examples of the string model *)

Example lit_ascii : lit "A b" = [65; 32; 98]%N.
Proof. reflexivity. Qed.

Example lit_cyrillic : lit "Ты →" = [1058; 1099; 32; 8594]%N.
Proof. reflexivity. Qed.

Example strip_example : strip (lit "  a b" ++ nl) = lit "a b".
Proof. reflexivity. Qed.

Example slice_last_example : slice_last 3 [1; 2; 3; 4; 5]%Z = [3; 4; 5]%Z.
Proof. reflexivity. Qed.

Example slice_last_short : slice_last 3 [1; 2]%Z = [1; 2]%Z.
Proof. reflexivity. Qed.

(** ** Facts about [strip] and slicing *)

Section StringFacts.

Implicit Types (s a b ws : str).

Lemma lstrip_starts_clean s : starts_clean (lstrip s) = true.
Proof.
  induction s as [|c s IH]; simpl; [done|].
  destruct (isspace c) eqn:Hc; [done|]. simpl. by rewrite Hc.
Qed.

Lemma lstrip_id s : starts_clean s = true → lstrip s = s.
Proof.
  destruct s as [|c s]; simpl; [done|].
  by destruct (isspace c).
Qed.

Lemma lstrip_all_space ws s : all_space ws = true → lstrip (ws ++ s) = lstrip s.
Proof.
  induction ws as [|c ws IH]; simpl; [done|].
  intros [Hc Hws]%andb_prop. rewrite Hc. auto.
Qed.

Lemma lstrip_app_clean a b :
  a ≠ [] → starts_clean a = true → lstrip (a ++ b) = a ++ b.
Proof.
  destruct a as [|c a]; [done|]. simpl. intros _ Hc.
  by destruct (isspace c).
Qed.

Lemma lstrip_decompose s : ∃ ws, all_space ws = true ∧ s = ws ++ lstrip s.
Proof.
  induction s as [|c s (ws & Hws & Heq)]; [by exists []|].
  simpl. destruct (isspace c) eqn:Hc.
  - exists (c :: ws). simpl. rewrite Hc, Hws. split; [done|]. by f_equal.
  - by exists [].
Qed.

Lemma rstrip_ends_clean s : ends_clean (rstrip s) = true.
Proof.
  unfold ends_clean, rstrip. rewrite rev_involutive. apply lstrip_starts_clean.
Qed.

Lemma rstrip_id s : ends_clean s = true → rstrip s = s.
Proof.
  unfold ends_clean, rstrip. intros H. rewrite (lstrip_id _ H).
  apply rev_involutive.
Qed.

Lemma rstrip_decompose s : ∃ ws, all_space ws = true ∧ s = rstrip s ++ ws.
Proof.
  destruct (lstrip_decompose (rev s)) as (ws & Hws & Heq).
  exists (rev ws). split.
  - unfold all_space in *. rewrite forallb_forall in *.
    intros x Hx. apply Hws. by apply in_rev.
  - unfold rstrip. rewrite <- rev_app_distr, <- Heq. symmetry. apply rev_involutive.
Qed.

Lemma rstrip_starts_clean s : starts_clean s = true → starts_clean (rstrip s) = true.
Proof.
  intros H. destruct (rstrip_decompose s) as (ws & _ & Heq).
  destruct (rstrip s) as [|c r]; [done|].
  rewrite Heq in H. exact H.
Qed.

Lemma rstrip_app_clean a b :
  b ≠ [] → ends_clean b = true → rstrip (a ++ b) = a ++ b.
Proof.
  intros Hb Hc. unfold rstrip. rewrite rev_app_distr.
  rewrite lstrip_app_clean.
  - rewrite <- rev_app_distr. apply rev_involutive.
  - intros Hr. apply Hb. rewrite <- (rev_involutive b), Hr. done.
  - exact Hc.
Qed.

Lemma rstrip_all_space s ws : all_space ws = true → rstrip (s ++ ws) = rstrip s.
Proof.
  intros Hws. unfold rstrip. rewrite rev_app_distr. f_equal.
  apply lstrip_all_space.
  unfold all_space in *. rewrite forallb_forall in *.
  intros x Hx. apply Hws. by apply in_rev.
Qed.

Lemma strip_is_stripped s : is_stripped (strip s) = true.
Proof.
  unfold is_stripped, strip.
  rewrite rstrip_ends_clean, rstrip_starts_clean; [done|].
  apply lstrip_starts_clean.
Qed.

Lemma strip_id s : is_stripped s = true → strip s = s.
Proof.
  unfold is_stripped, strip. intros [H1 H2]%andb_prop.
  rewrite (lstrip_id _ H1). by apply rstrip_id.
Qed.

Lemma strip_all_space s : all_space s = true → strip s = [].
Proof.
  intros H. unfold strip.
  rewrite <- (app_nil_r s), (lstrip_all_space _ _ H). done.
Qed.

Lemma strip_idempotent s : strip (strip s) = strip s.
Proof. apply strip_id, strip_is_stripped. Qed.

(** What [(prev + "\n" + new).strip()] is when both parts are stripped. *)
Lemma strip_join prev new :
  is_stripped prev = true → is_stripped new = true →
  strip (prev ++ nl ++ new) =
    match prev, new with
    | [], _ => new
    | _, [] => prev
    | _, _ => prev ++ nl ++ new
    end.
Proof.
  intros Hp Hn.
  destruct prev as [|p ps].
  - unfold strip. simpl. fold (strip new). by apply strip_id.
  - pose proof Hp as [Hp1 Hp2]%andb_prop.
    unfold strip. rewrite lstrip_app_clean by done.
    destruct new as [|n ns].
    + rewrite rstrip_all_space by done. by apply rstrip_id.
    + pose proof Hn as [Hn1 Hn2]%andb_prop.
      rewrite (app_assoc (p :: ps) nl (n :: ns)).
      rewrite rstrip_app_clean by done. by rewrite <- app_assoc.
Qed.

End StringFacts.

Section SliceFacts.

Context {A : Type}.
Implicit Types (l : list A).

Lemma slice_last_length n l : (0 < n)%nat → length (slice_last n l) = min n (length l).
Proof.
  intros Hn. destruct n as [|n]; [lia|].
  unfold slice_last. rewrite length_drop. lia.
Qed.

Lemma slice_last_all n l : (length l ≤ n)%nat → slice_last n l = l.
Proof.
  intros Hl. destruct n as [|n]; [done|].
  unfold slice_last. by replace (length l - S n)%nat with 0%nat by lia.
Qed.

Lemma slice_last_suffix n l : slice_last n l `suffix_of` l.
Proof.
  destruct n as [|n]; [done|]. apply suffix_drop.
Qed.

End SliceFacts.

(** ** Equations of the handlers *)

Ltac unfold_m :=
  cbv [mbind M_bind mret M_ret raise try_except gets emit
       summary_setitem summary_pop turns_setitem turns_getitem
       turns_setdefault turns_pop USER_SUMMARY USER_TURNS trace
       set_turns log stored_turns stored_summary].

Lemma append_turns_eq (ms : list message) (ts : list turn) :
  append_turns ms ts = ms ++ map turn_message ts.
Proof.
  revert ms. induction ts as [|t ts IH]; intros ms; simpl.
  - by rewrite app_nil_r.
  - unfold append_turns in *. simpl. rewrite IH, <- app_assoc. done.
Qed.

Lemma _get_history_eq (user_id : Z) (w : world) :
  _get_history user_id w = (Ok (context_of w user_id), w).
Proof.
  unfold _get_history, context_of. unfold_m.
  rewrite append_turns_eq.
  destruct w as [S T tr]; simpl.
  destruct (truthy (default [] (S !! user_id))); simpl; done.
Qed.

Lemma store_user_message_eq (user_id : Z) (text : str) (w : world) :
  store_user_message user_id text w =
    (Ok tt, set_turns w user_id
              (slice_last MAX_TURNS (stored_turns w user_id ++ [(user, text)]))).
Proof.
  destruct w as [S T tr]. unfold store_user_message. unfold_m.
  destruct (T !! user_id) as [l|] eqn:Hl; unfold_m;
    rewrite ?lookup_insert_eq, ?insert_insert_eq; done.
Qed.

Lemma store_assistant_message_eq (user_id : Z) (answer : str) (w : world) (l : list turn) :
  USER_TURNS w !! user_id = Some l →
  store_assistant_message user_id answer w =
    (Ok tt, set_turns w user_id (slice_last MAX_TURNS (l ++ [(assistant, answer)]))).
Proof.
  destruct w as [S T tr]. simpl. intros Hl.
  unfold store_assistant_message. unfold_m. rewrite Hl.
  rewrite ?lookup_insert_eq, ?insert_insert_eq; done.
Qed.

Lemma store_assistant_message_missing (user_id : Z) (answer : str) (w : world) :
  USER_TURNS w !! user_id = None →
  store_assistant_message user_id answer w = (Raised (KeyError user_id), w).
Proof.
  destruct w as [S T tr]. simpl. intros Hl.
  unfold store_assistant_message. unfold_m. by rewrite Hl.
Qed.

Section BotFacts.

Variable cfg : config.
Variable engine : request → completion.

Lemma chat_completions_create_eq (r : request) (w : world) :
  chat_completions_create engine r w =
    (match engine r with Fails e => Raised e | Response cs => Ok cs end,
     log w (Completion r)).
Proof.
  unfold chat_completions_create. unfold_m. by destruct (engine r).
Qed.

Lemma _update_memory_below (user_id : Z) (w : world) :
  (turn_count w user_id < 10)%nat →
  _update_memory cfg engine user_id w = (Ok tt, w).
Proof.
  destruct w as [S T tr].
  unfold turn_count, stored_turns, _update_memory. simpl. intros Hlt. unfold_m.
  apply Nat.ltb_lt in Hlt. by rewrite Hlt.
Qed.

Lemma _update_memory_eq (user_id : Z) (w : world) :
  (10 ≤ turn_count w user_id)%nat →
  _update_memory cfg engine user_id w =
    let r := compress_request cfg (stored_turns w user_id) in
    match extracted (engine r) with
    | Raised e => (Raised e, log w (Completion r))
    | Ok new_summary =>
      (Ok tt,
       World (<[user_id := strip (stored_summary w user_id ++ nl ++ new_summary)]>
                (USER_SUMMARY w))
             (<[user_id := slice_last 6 (stored_turns w user_id)]> (USER_TURNS w))
             (trace w ++ [Completion r]))
    end.
Proof.
  destruct w as [S T tr].
  unfold turn_count, stored_turns, _update_memory. simpl. intros Hge.
  apply Nat.ltb_ge in Hge. unfold_m. rewrite Hge.
  rewrite append_turns_eq. fold (compress_request cfg (default [] (T !! user_id))).
  unfold chat_completions_create, first_content_stripped, extracted. unfold_m.
  destruct (engine _) as [e|[|[c|] cs]]; done.
Qed.

Lemma update_memory_guarded_below (user_id : Z) (w : world) :
  (turn_count w user_id < 10)%nat →
  update_memory_guarded cfg engine user_id w = (Ok tt, w).
Proof.
  intros Hlt. unfold update_memory_guarded, try_except.
  by rewrite _update_memory_below.
Qed.

Lemma turn_count_set_turns (w : world) (user_id : Z) (l : list turn) :
  turn_count (set_turns w user_id l) user_id = length l.
Proof.
  unfold turn_count, stored_turns, set_turns. simpl. by rewrite lookup_insert_eq.
Qed.

Lemma turn_count_log (w : world) (ev : event) (user_id : Z) :
  turn_count (log w ev) user_id = turn_count w user_id.
Proof. done. Qed.

Lemma lookup_after_user (w : world) (upd : update) :
  USER_TURNS (after_user w upd) !! effective_user upd =
    Some (stored_turns (after_user w upd) (effective_user upd)).
Proof.
  unfold after_user, stored_turns, set_turns. simpl. by rewrite lookup_insert_eq.
Qed.

Lemma lookup_after_request (w : world) (upd : update) :
  USER_TURNS (after_request cfg w upd) !! effective_user upd =
    Some (stored_turns (after_user w upd) (effective_user upd)).
Proof. apply lookup_after_user. Qed.

Lemma turn_count_after_user (w : world) (upd : update) :
  (turn_count (after_user w upd) (effective_user upd) ≤ MAX_TURNS)%nat.
Proof.
  unfold after_user. rewrite turn_count_set_turns.
  rewrite slice_last_length by (unfold MAX_TURNS; lia). lia.
Qed.

Lemma turn_count_after_answer (w : world) (upd : update) (answer : str) :
  (turn_count (after_answer cfg w upd answer) (effective_user upd) ≤ MAX_TURNS)%nat.
Proof.
  unfold after_answer. rewrite turn_count_log, turn_count_set_turns.
  rewrite slice_last_length by (unfold MAX_TURNS; lia). lia.
Qed.

Lemma handle_message_eq (upd : update) (w : world) :
  handle_message cfg engine upd w =
    match extracted (engine (reply_request cfg (after_user w upd) (effective_user upd))) with
    | Raised e => (Raised e, after_request cfg w upd)
    | Ok answer => (Ok tt, after_answer cfg w upd answer)
    end.
Proof.
  unfold handle_message.
  unfold mbind at 1, M_bind at 1. rewrite store_user_message_eq.
  fold (after_user w upd).
  unfold mbind at 1, M_bind at 1. rewrite _get_history_eq.
  fold (reply_request cfg (after_user w upd) (effective_user upd)).
  unfold mbind at 1, M_bind at 1. rewrite chat_completions_create_eq.
  fold (after_request cfg w upd).
  unfold extracted.
  destruct (engine _) as [e|[|[c|] cs]]; [done|done| |done].
  unfold first_content_stripped.
  unfold mbind at 1, M_bind at 1. unfold mret at 1, M_ret at 1.
  unfold mbind at 1, M_bind at 1.
  rewrite (store_assistant_message_eq _ _ _ _ (lookup_after_request w upd)).
  unfold mbind at 1, M_bind at 1. unfold reply_text, emit at 1.
  fold (log (set_turns (after_request cfg w upd) (effective_user upd)
               (slice_last MAX_TURNS
                  (stored_turns (after_user w upd) (effective_user upd)
                   ++ [(assistant, strip c)])))
            (ReplyText (effective_user upd) (strip c) KEYBOARD)).
  fold (after_answer cfg w upd (strip c)).
  apply update_memory_guarded_below.
  pose proof (turn_count_after_answer w upd (strip c)). unfold MAX_TURNS in *. lia.
Qed.

End BotFacts.

(** ** Equations of the command handlers *)

Lemma reset_eq (upd : update) (w : world) :
  reset upd w = (Ok tt, after_reset w upd).
Proof. by destruct w. Qed.

Lemma command_store_unchanged (h : update → M unit) (upd : update) (w : world) :
  h = start ∨ h = summary_cmd ∨ h = mirror_cmd →
  ∃ text, h upd w = (Ok tt, log w (ReplyText (effective_user upd) text KEYBOARD)).
Proof.
  destruct w as [S T tr].
  intros [-> | [-> | ->]]; eexists; reflexivity.
Qed.

(** ** The invariant of the dispatcher *)

Lemma turn_count_set_turns_ne (w : world) (u u' : Z) (l : list turn) :
  u ≠ u' → turn_count (set_turns w u l) u' = turn_count w u'.
Proof.
  intros Hne. unfold turn_count, stored_turns, set_turns. simpl.
  by rewrite lookup_insert_ne.
Qed.

Lemma inv_empty_world : reachable_inv empty_world.
Proof.
  split; [done| |].
  - intros u. unfold turn_count, stored_turns. simpl. rewrite lookup_empty. simpl. lia.
  - intros r Hr. simpl in Hr. by apply not_elem_of_nil in Hr.
Qed.

Lemma inv_log_reply (w : world) (u : Z) (text : str) (k : reply_keyboard) :
  reachable_inv w → reachable_inv (log w (ReplyText u text k)).
Proof.
  intros [HS HT Htr]. split; [done|done|].
  intros r Hr. simpl in Hr. apply elem_of_app in Hr as [Hr|Hr]; [auto|].
  apply list_elem_of_singleton in Hr. discriminate.
Qed.

Lemma inv_after_user (w : world) (upd : update) :
  reachable_inv w → reachable_inv (after_user w upd).
Proof.
  intros [HS HT Htr]. split; [done| |done].
  intros u. destruct (decide (effective_user upd = u)) as [<-|Hne].
  - apply turn_count_after_user.
  - unfold after_user. by rewrite turn_count_set_turns_ne.
Qed.

Lemma inv_after_request (cfg : config) (w : world) (upd : update) :
  reachable_inv w → reachable_inv (after_request cfg w upd).
Proof.
  intros Hw. destruct (inv_after_user w upd Hw) as [HS HT Htr].
  split; [done|done|].
  intros r Hr. unfold after_request in Hr. simpl in Hr.
  apply elem_of_app in Hr as [Hr|Hr]; [auto|].
  apply list_elem_of_singleton in Hr. by inversion Hr.
Qed.

Lemma inv_after_answer (cfg : config) (w : world) (upd : update) (answer : str) :
  reachable_inv w → reachable_inv (after_answer cfg w upd answer).
Proof.
  intros Hw. unfold after_answer. apply inv_log_reply.
  destruct (inv_after_request cfg w upd Hw) as [HS HT Htr].
  split; [done| |done].
  intros u. destruct (decide (effective_user upd = u)) as [<-|Hne].
  - rewrite turn_count_set_turns.
    rewrite slice_last_length by (unfold MAX_TURNS; lia). lia.
  - rewrite turn_count_set_turns_ne by done. apply HT.
Qed.

Lemma inv_after_reset (w : world) (upd : update) :
  reachable_inv w → reachable_inv (after_reset w upd).
Proof.
  intros [HS HT Htr]. split.
  - simpl. rewrite HS. apply delete_empty.
  - intros u. unfold turn_count, stored_turns, after_reset. simpl.
    destruct (decide (effective_user upd = u)) as [<-|Hne].
    + rewrite lookup_delete_eq. simpl. lia.
    + rewrite lookup_delete_ne by done. apply HT.
  - intros r Hr. simpl in Hr. apply elem_of_app in Hr as [Hr|Hr]; [auto|].
    apply list_elem_of_singleton in Hr. discriminate.
Qed.

Lemma inv_step (cfg : config) (w : world) (i : input) :
  reachable_inv w → reachable_inv (step cfg w i).
Proof.
  intros Hw. unfold step.
  destruct i as [upd|upd|upd|upd|upd engine]; cbv beta iota delta [dispatch].
  - destruct (command_store_unchanged start upd w) as [t ->]; [auto|].
    by apply inv_log_reply.
  - rewrite reset_eq. by apply inv_after_reset.
  - destruct (command_store_unchanged summary_cmd upd w) as [t ->]; [auto|].
    by apply inv_log_reply.
  - destruct (command_store_unchanged mirror_cmd upd w) as [t ->]; [auto|].
    by apply inv_log_reply.
  - rewrite handle_message_eq. destruct (extracted _); simpl.
    + by apply inv_after_answer.
    + by apply inv_after_request.
Qed.

Lemma inv_run (cfg : config) (ins : list input) (w : world) :
  reachable_inv w → reachable_inv (run cfg ins w).
Proof.
  revert w. induction ins as [|i ins IH]; intros w Hw; [done|].
  simpl. apply IH. by apply inv_step.
Qed.

(** ** The claims *)

(** C1 (evaluated on the scenario of the specification). After the first
    exchange the stored turns are [(user, A); (assistant, B)]. After five
    exchanges ten entries have been appended, but each append trims the
    buffer to [MAX_TURNS = 8] entries, so the buffer holds the last eight
    entries, the guard [len(turns) < 10] of the compression step holds, no
    compression request is sent and no summary is stored. *)
Theorem five_exchanges_leave_summary_empty :
  stored_turns (run demo_cfg [exchange "A" "B"] empty_world) 1
    = [(user, lit "A"); (assistant, lit "B")]
  ∧ stored_turns (run demo_cfg five_exchanges empty_world) 1
    = [(user, lit "C"); (assistant, lit "D"); (user, lit "E"); (assistant, lit "F");
       (user, lit "G"); (assistant, lit "H"); (user, lit "I"); (assistant, lit "J")]
  ∧ turn_count (run demo_cfg five_exchanges empty_world) 1 = 8%nat
  ∧ USER_SUMMARY (run demo_cfg five_exchanges empty_world) !! 1%Z = None
  ∧ stored_summary (run demo_cfg five_exchanges empty_world) 1 = []
  ∧ request_temperatures (trace (run demo_cfg five_exchanges empty_world))
    = replicate 5 REPLY_TEMPERATURE.
Proof. vm_compute. repeat split; reflexivity. Qed.

(** C2. The stored turn count of a user is at most [MAX_TURNS = 8] after
    the user turn has been stored (append and trim, lines 133-134), after
    the assistant turn has been stored (lines 146-147), in every world the
    dispatcher reaches from the empty store, and after a compression that
    succeeds (which leaves exactly six turns). *)
Theorem turn_count_at_most_max_turns :
  MAX_TURNS = 8%nat
  ∧ (∀ user_id text w,
       (turn_count (store_user_message user_id text w).2 user_id ≤ MAX_TURNS)%nat)
  ∧ (∀ user_id answer w,
       (turn_count (store_assistant_message user_id answer w).2 user_id ≤ MAX_TURNS)%nat)
  ∧ (∀ cfg ins user_id,
       (turn_count (run cfg ins empty_world) user_id ≤ MAX_TURNS)%nat)
  ∧ (∀ cfg engine user_id w,
       (10 ≤ turn_count w user_id)%nat →
       (_update_memory cfg engine user_id w).1 = Ok tt →
       turn_count (_update_memory cfg engine user_id w).2 user_id = 6%nat
       ∧ (6 ≤ MAX_TURNS)%nat).
Proof.
  split; [done|]. split; [|split; [|split]].
  - intros u text w. rewrite store_user_message_eq. cbn [snd].
    rewrite turn_count_set_turns, slice_last_length by (unfold MAX_TURNS; lia). lia.
  - intros u answer w. destruct (USER_TURNS w !! u) as [l|] eqn:Hl.
    + rewrite (store_assistant_message_eq _ _ _ _ Hl). cbn [snd].
      rewrite turn_count_set_turns, slice_last_length by (unfold MAX_TURNS; lia). lia.
    + rewrite store_assistant_message_missing by done. cbn [snd].
      unfold turn_count, stored_turns. rewrite Hl. simpl. lia.
  - intros cfg ins u. apply (inv_run cfg ins empty_world inv_empty_world).
  - intros cfg engine u w Hge. rewrite _update_memory_eq by done.
    cbv zeta. destruct (extracted _) as [new|e]; cbn [fst snd]; [|done].
    intros _. split; [|unfold MAX_TURNS; lia].
    unfold turn_count at 1, stored_turns at 1. cbn [USER_TURNS].
    rewrite lookup_insert_eq. cbn [from_option id].
    rewrite slice_last_length by lia. unfold turn_count in Hge. lia.
Qed.

(** The bound after a compression that succeeds, on a store with ten
    turns. *)
Lemma turn_count_at_most_max_turns_witness :
  turn_count (_update_memory demo_cfg (always (lit "S")) 1 ten_turn_world).2 1 = 6%nat
  ∧ (6 ≤ MAX_TURNS)%nat.
Proof.
  apply (proj2 (proj2 (proj2 (proj2 turn_count_at_most_max_turns)))).
  - vm_compute. lia.
  - vm_compute. reflexivity.
Defined.

(** C3. In every world reachable from the empty store by any sequence of
    commands and messages, every turn buffer has fewer than ten entries, no
    summary is stored, the compression step returns at its guard without
    touching the world, and every request that has been sent carries the
    reply temperature, never the compression one. *)
Theorem compression_unreachable (cfg : config) (ins : list input) :
  (∀ user_id, (turn_count (run cfg ins empty_world) user_id < 10)%nat)
  ∧ USER_SUMMARY (run cfg ins empty_world) = ∅
  ∧ (∀ user_id, stored_summary (run cfg ins empty_world) user_id = [])
  ∧ (∀ engine user_id,
       _update_memory cfg engine user_id (run cfg ins empty_world)
       = (Ok tt, run cfg ins empty_world))
  ∧ (∀ r, Completion r ∈ trace (run cfg ins empty_world) →
          temperature r = REPLY_TEMPERATURE
          ∧ temperature r ≠ COMPRESS_TEMPERATURE).
Proof.
  destruct (inv_run cfg ins empty_world inv_empty_world) as [HS HT Htr].
  assert (Hlt : ∀ u, (turn_count (run cfg ins empty_world) u < 10)%nat).
  { intros u. specialize (HT u). unfold MAX_TURNS in HT. lia. }
  repeat split; try done.
  - intros u. unfold stored_summary. by rewrite HS, lookup_empty.
  - intros engine u. by apply _update_memory_below.
  - by apply Htr.
  - rewrite (Htr r) by done. intros Heq.
    assert (Hlt' : PrimFloat.ltb COMPRESS_TEMPERATURE REPLY_TEMPERATURE = true)
      by reflexivity.
    rewrite Heq in Hlt'. vm_compute in Hlt'. discriminate.
Qed.

(** C4. Building the context returns the instruction message, then the
    summary message exactly when the stored summary is non-empty, then one
    message per stored turn, oldest first; the world it returns is the world
    it was given. *)
Theorem get_history_is_ordered_pure_read (user_id : Z) (w : world) :
  _get_history user_id w =
    (Ok ([Message system SYSTEM_PROMPT]
         ++ (match stored_summary w user_id with
             | [] => []
             | _ :: _ => [Message system (SUMMARY_PREFIX ++ stored_summary w user_id)]
             end)
         ++ map (λ t, Message t.1 t.2) (stored_turns w user_id)),
     w).
Proof.
  rewrite _get_history_eq. unfold context_of, truthy.
  by destruct (stored_summary w user_id).
Qed.

(** The check the specification asks for: a non-empty summary and three
    turns. *)
Example get_history_summary_and_three_turns :
  (_get_history 7
     (World {[ 7%Z := lit "S" ]}
            {[ 7%Z := [(user, lit "a"); (assistant, lit "b"); (user, lit "c")] ]}
            [])).1
  = Ok [Message system SYSTEM_PROMPT;
        Message system (SUMMARY_PREFIX ++ lit "S");
        Message user (lit "a"); Message assistant (lit "b"); Message user (lit "c")].
Proof. vm_compute. reflexivity. Qed.

Lemma extracted_is_stripped (c : completion) (new : str) :
  extracted c = Ok new → is_stripped new = true.
Proof.
  destruct c as [e|[|[s|] cs]]; simpl; intros H; inversion H.
  apply strip_is_stripped.
Qed.

(** C5, as stated, fails on the first compression: with no summary stored
    and the engine answering [S], the new summary is [S], not the old
    (empty) summary, a newline and [S]. *)
Lemma first_summary_is_not_newline_joined :
  (10 ≤ turn_count ten_turn_world 1)%nat
  ∧ (_update_memory demo_cfg (always (lit "S")) 1 ten_turn_world).1 = Ok tt
  ∧ stored_summary (_update_memory demo_cfg (always (lit "S")) 1 ten_turn_world).2 1
    = lit "S"
  ∧ stored_summary (_update_memory demo_cfg (always (lit "S")) 1 ten_turn_world).2 1
    ≠ stored_summary ten_turn_world 1 ++ nl ++ lit "S".
Proof.
  split; [vm_compute; lia|]. split; [vm_compute; reflexivity|].
  split; [vm_compute; reflexivity|]. vm_compute. discriminate.
Qed.

(** C5, amended. The compression step does nothing below ten stored turns.
    With at least ten, when the engine's answer can be read, it sends one
    request made of the compression instruction and the last ten turns,
    stores as summary the stripped concatenation of the old summary, a
    newline and the stripped answer, and keeps the last six turns. The stored
    summary is again stripped; when the old one was stripped (as every stored
    summary is), the new one is the answer alone if the old one was empty,
    the old one alone if the answer was empty, and old, newline, answer
    otherwise, so the old summary is a prefix of the new one and the length
    does not decrease. *)
Theorem compression_step_spec
    (cfg : config) (engine : request → completion) (user_id : Z) (w : world)
    (new : str) :
  (10 ≤ turn_count w user_id)%nat →
  extracted (engine (compress_request cfg (stored_turns w user_id))) = Ok new →
  (∀ w0, (turn_count w0 user_id < 10)%nat →
         _update_memory cfg engine user_id w0 = (Ok tt, w0))
  ∧ (_update_memory cfg engine user_id w).1 = Ok tt
  ∧ trace (_update_memory cfg engine user_id w).2
    = trace w ++ [Completion (compress_request cfg (stored_turns w user_id))]
  ∧ messages (compress_request cfg (stored_turns w user_id))
    = Message system COMPRESS_PROMPT
      :: map (λ t, Message t.1 t.2) (slice_last 10 (stored_turns w user_id))
  ∧ length (slice_last 10 (stored_turns w user_id)) = 10%nat
  ∧ slice_last 10 (stored_turns w user_id) `suffix_of` stored_turns w user_id
  ∧ USER_SUMMARY (_update_memory cfg engine user_id w).2 !! user_id
    = Some (strip (stored_summary w user_id ++ nl ++ new))
  ∧ is_stripped (stored_summary (_update_memory cfg engine user_id w).2 user_id) = true
  ∧ (is_stripped (stored_summary w user_id) = true →
       stored_summary (_update_memory cfg engine user_id w).2 user_id
       = match stored_summary w user_id, new with
         | [], _ => new
         | _, [] => stored_summary w user_id
         | _, _ => stored_summary w user_id ++ nl ++ new
         end
       ∧ stored_summary w user_id
           `prefix_of` stored_summary (_update_memory cfg engine user_id w).2 user_id
       ∧ (length (stored_summary w user_id)
          ≤ length (stored_summary (_update_memory cfg engine user_id w).2 user_id))%nat)
  ∧ USER_TURNS (_update_memory cfg engine user_id w).2 !! user_id
    = Some (slice_last 6 (stored_turns w user_id))
  ∧ turn_count (_update_memory cfg engine user_id w).2 user_id = 6%nat.
Proof.
  intros Hge Hnew.
  split; [intros w0 Hlt; by apply _update_memory_below|].
  rewrite _update_memory_eq by done. cbv zeta. rewrite Hnew. cbn [fst snd].
  set (prev := stored_summary w user_id).
  set (turns := stored_turns w user_id).
  set (r := compress_request cfg turns).
  set (w' := World _ _ _).
  assert (HS : USER_SUMMARY w' !! user_id = Some (strip (prev ++ nl ++ new)))
    by apply lookup_insert_eq.
  assert (HT : USER_TURNS w' !! user_id = Some (slice_last 6 turns))
    by apply lookup_insert_eq.
  assert (Hlen6 : length (slice_last 6 turns) = 6%nat).
  { rewrite slice_last_length by lia. unfold turn_count in Hge. fold turns in Hge. lia. }
  assert (Hjoin : is_stripped prev = true →
    strip (prev ++ nl ++ new)
    = match prev, new with
      | [], _ => new
      | _, [] => prev
      | _, _ => prev ++ nl ++ new
      end).
  { intros Hprev. apply strip_join; [done|]. by eapply extracted_is_stripped. }
  assert (Hpre : is_stripped prev = true → prev `prefix_of` strip (prev ++ nl ++ new)).
  { intros Hprev. rewrite Hjoin by done.
    destruct prev as [|p ps]; [apply prefix_nil|].
    destruct new; [done|]. by apply prefix_app_r. }
  unfold turn_count, stored_summary at 1 2 3 4, stored_turns at 1.
  rewrite HS, HT. cbn [from_option id].
  split; [done|]. split; [done|]. split; [done|].
  split. { rewrite slice_last_length by lia. unfold turn_count in Hge. fold turns in Hge. lia. }
  split; [apply slice_last_suffix|]. split; [done|].
  split; [apply strip_is_stripped|].
  split; [|done].
  intros Hprev. split; [by apply Hjoin|]. split; [by apply Hpre|].
  apply prefix_length. by apply Hpre.
Qed.

(** The compression step on a store with ten turns and an engine that
    answers [" S "]. *)
Lemma compression_step_spec_witness :
  USER_SUMMARY (_update_memory demo_cfg (always (lit " S ")) 1 ten_turn_world).2 !! 1%Z
    = Some (strip (stored_summary ten_turn_world 1 ++ nl ++ lit "S"))
  ∧ turn_count (_update_memory demo_cfg (always (lit " S ")) 1 ten_turn_world).2 1 = 6%nat.
Proof.
  assert (H1 : (10 ≤ turn_count ten_turn_world 1)%nat) by (vm_compute; lia).
  assert (H2 : extracted (always (lit " S ")
                 (compress_request demo_cfg (stored_turns ten_turn_world 1)))
               = Ok (lit "S")) by reflexivity.
  pose proof (compression_step_spec demo_cfg (always (lit " S ")) 1 ten_turn_world
                (lit "S") H1 H2) as H.
  split; [apply H | apply H].
Defined.

(** Whatever makes the compression step raise, the guarded call returns
    normally with the dictionaries as they were; the trace gains the request
    and the warning. *)
Lemma update_memory_guarded_raises
    (cfg : config) (engine : request → completion) (user_id : Z) (w : world) (e : exn) :
  (10 ≤ turn_count w user_id)%nat →
  extracted (engine (compress_request cfg (stored_turns w user_id))) = Raised e →
  _update_memory cfg engine user_id w
    = (Raised e, log w (Completion (compress_request cfg (stored_turns w user_id))))
  ∧ update_memory_guarded cfg engine user_id w
    = (Ok tt,
       World (USER_SUMMARY w) (USER_TURNS w)
         (trace w ++ [Completion (compress_request cfg (stored_turns w user_id));
                      LogWarning e])).
Proof.
  intros Hge He.
  assert (Hraise : _update_memory cfg engine user_id w
    = (Raised e, log w (Completion (compress_request cfg (stored_turns w user_id))))).
  { rewrite _update_memory_eq by done. cbv zeta. by rewrite He. }
  split; [done|].
  unfold update_memory_guarded, try_except. rewrite Hraise.
  unfold emit, log. cbn [USER_SUMMARY USER_TURNS trace]. by rewrite <- app_assoc.
Qed.

(** C6. When the engine call of the compression step raises, the [try]
    block of the message handler returns normally, the warning is logged,
    the user's summary and turn buffer (the whole store) are as before, and
    the trace recorded so far, which holds the delivered reply, is kept as
    a prefix. *)
Theorem compression_failure_leaves_session_unchanged
    (cfg : config) (engine : request → completion) (user_id : Z) (w : world) (e : exn) :
  (10 ≤ turn_count w user_id)%nat →
  engine (compress_request cfg (stored_turns w user_id)) = Fails e →
  (update_memory_guarded cfg engine user_id w).1 = Ok tt
  ∧ USER_SUMMARY (update_memory_guarded cfg engine user_id w).2 = USER_SUMMARY w
  ∧ USER_TURNS (update_memory_guarded cfg engine user_id w).2 = USER_TURNS w
  ∧ trace (update_memory_guarded cfg engine user_id w).2
    = trace w ++ [Completion (compress_request cfg (stored_turns w user_id));
                  LogWarning e]
  ∧ (_update_memory cfg engine user_id w).1 = Raised e
  ∧ USER_SUMMARY (_update_memory cfg engine user_id w).2 = USER_SUMMARY w
  ∧ USER_TURNS (_update_memory cfg engine user_id w).2 = USER_TURNS w.
Proof.
  intros Hge He.
  destruct (update_memory_guarded_raises cfg engine user_id w e Hge) as [H1 H2].
  { by rewrite He. }
  rewrite H1, H2. done.
Qed.

(** The guarded call on a store with ten turns and an engine that fails. *)
Lemma compression_failure_leaves_session_unchanged_witness :
  (update_memory_guarded demo_cfg (broken (APIError 500)) 1 ten_turn_world).1 = Ok tt
  ∧ USER_SUMMARY (update_memory_guarded demo_cfg (broken (APIError 500)) 1 ten_turn_world).2
    = USER_SUMMARY ten_turn_world
  ∧ USER_TURNS (update_memory_guarded demo_cfg (broken (APIError 500)) 1 ten_turn_world).2
    = USER_TURNS ten_turn_world.
Proof.
  assert (H1 : (10 ≤ turn_count ten_turn_world 1)%nat) by (vm_compute; lia).
  pose proof (compression_failure_leaves_session_unchanged
                demo_cfg (broken (APIError 500)) 1 ten_turn_world (APIError 500)
                H1 eq_refl) as H.
  split; [apply H|]. split; apply H.
Defined.

(** A response without choices, or whose first choice has no content, is
    handled the same way. *)
Example malformed_response_leaves_session_unchanged :
  update_memory_guarded demo_cfg (λ _, Response []) 1 ten_turn_world
  = (Ok tt,
     World ∅ {[ 1%Z := ten_turns ]}
       [Completion (compress_request demo_cfg ten_turns); LogWarning IndexError])
  ∧ update_memory_guarded demo_cfg (λ _, Response [None]) 1 ten_turn_world
  = (Ok tt,
     World ∅ {[ 1%Z := ten_turns ]}
       [Completion (compress_request demo_cfg ten_turns); LogWarning AttributeError]).
Proof.
  split.
  - apply (update_memory_guarded_raises demo_cfg (λ _, Response []) 1 ten_turn_world
             IndexError); [vm_compute; lia|done].
  - apply (update_memory_guarded_raises demo_cfg (λ _, Response [None]) 1 ten_turn_world
             AttributeError); [vm_compute; lia|done].
Qed.

(** C7. [reset] returns normally in every world, with or without a session
    for the user; afterwards neither dictionary has an entry for the user,
    the other users' entries are as before, and the context built for the
    user is the instruction message alone. *)
Theorem reset_forgets_session (upd : update) (w : world) :
  (reset upd w).1 = Ok tt
  ∧ USER_SUMMARY (reset upd w).2 !! effective_user upd = None
  ∧ USER_TURNS (reset upd w).2 !! effective_user upd = None
  ∧ (∀ u, u ≠ effective_user upd →
          USER_SUMMARY (reset upd w).2 !! u = USER_SUMMARY w !! u
          ∧ USER_TURNS (reset upd w).2 !! u = USER_TURNS w !! u)
  ∧ _get_history (effective_user upd) (reset upd w).2
    = (Ok [Message system SYSTEM_PROMPT], (reset upd w).2).
Proof.
  rewrite reset_eq. cbn [fst snd].
  split; [done|]. split; [apply lookup_delete_eq|]. split; [apply lookup_delete_eq|].
  split.
  - intros u Hne. unfold after_reset. cbn [USER_SUMMARY USER_TURNS].
    by rewrite !lookup_delete_ne.
  - rewrite _get_history_eq. f_equal. f_equal. unfold context_of.
    unfold stored_summary, stored_turns, after_reset. cbn [USER_SUMMARY USER_TURNS].
    by rewrite !lookup_delete_eq.
Qed.

Example reset_without_session :
  reset (Update 5 None) empty_world
  = (Ok tt, World ∅ ∅ [ReplyText 5 (lit "Память очищена.") KEYBOARD]).
Proof. rewrite reset_eq. unfold after_reset, empty_world. simpl. by rewrite !delete_empty. Qed.

(** An empty credential counts as missing: with [BOT_TOKEN] set to the empty
    string the guard of line 27 raises, before the client is built. *)
Example empty_bot_token_counts_as_missing :
  startup OpenAI_accepting environ_empty_token
  = Raised (RuntimeError
      (lit "Missing BOT_TOKEN (Telegram token). Add it in Render Environment Variables.")).
Proof. vm_compute. reflexivity. Qed.



Example startup_with_telegram_token :
  startup OpenAI_accepting environ_complete
  = Ok (Config (lit "123456:token") (lit "sk-demo") (OpenAIClient (lit "sk-demo"))
          (lit "gpt-4o-mini")).
Proof. vm_compute. reflexivity. Qed.

Lemma request_temperatures_snoc (tr : list event) (ev : event) :
  request_temperatures (tr ++ [ev])
  = request_temperatures tr
    ++ match ev with Completion r => [temperature r] | _ => [] end.
Proof.
  unfold request_temperatures. rewrite omap_app. by destruct ev.
Qed.

(** C9. A request is a record with a temperature field. The reply path of
    the message handler sends exactly one request, at [REPLY_TEMPERATURE];
    the compression step sends exactly one request when it passes its guard,
    at [COMPRESS_TEMPERATURE], and none otherwise; the two values differ and
    the compression one is the lower. *)
Theorem two_temperature_settings :
  PrimFloat.ltb COMPRESS_TEMPERATURE REPLY_TEMPERATURE = true
  ∧ COMPRESS_TEMPERATURE ≠ REPLY_TEMPERATURE
  ∧ (∀ cfg engine upd w,
       request_temperatures (trace (handle_message cfg engine upd w).2)
       = request_temperatures (trace w) ++ [REPLY_TEMPERATURE])
  ∧ (∀ cfg engine user_id w,
       request_temperatures (trace (_update_memory cfg engine user_id w).2)
       = request_temperatures (trace w)
         ++ (if (turn_count w user_id <? 10)%nat then [] else [COMPRESS_TEMPERATURE])).
Proof.
  split; [reflexivity|]. split.
  { intros Heq.
    assert (Hlt : PrimFloat.ltb COMPRESS_TEMPERATURE REPLY_TEMPERATURE = true)
      by reflexivity.
    rewrite Heq in Hlt. vm_compute in Hlt. discriminate. }
  split.
  - intros cfg engine upd w. rewrite handle_message_eq.
    destruct (extracted _) as [answer|e]; cbn [snd].
    + unfold after_answer, after_request, log, set_turns. cbn [trace].
      rewrite !request_temperatures_snoc. by rewrite app_nil_r.
    + unfold after_request, log. cbn [trace].
      by rewrite request_temperatures_snoc.
  - intros cfg engine user_id w.
    destruct (turn_count w user_id <? 10)%nat eqn:Hcmp.
    + apply Nat.ltb_lt in Hcmp. rewrite _update_memory_below by done.
      by rewrite app_nil_r.
    + apply Nat.ltb_ge in Hcmp. rewrite _update_memory_eq by done. cbv zeta.
      destruct (extracted _) as [new|e]; cbn [snd trace log];
        by rewrite request_temperatures_snoc.
Qed.

Lemma slice_last_snoc {A} (n : nat) (l : list A) (x : A) :
  slice_last (S n) (l ++ [x]) = drop (length l - n) l ++ [x].
Proof.
  unfold slice_last. rewrite length_app. simpl.
  replace (length l + 1 - S n)%nat with (length l - n)%nat by lia.
  apply drop_app_le. lia.
Qed.

Lemma stored_turns_after_user (w : world) (upd : update) :
  ∃ pre, stored_turns (after_user w upd) (effective_user upd)
         = pre ++ [(user, strip (default [] (message_text upd)))].
Proof.
  unfold after_user, stored_turns at 1, set_turns. cbn [USER_TURNS].
  rewrite lookup_insert_eq. cbn [from_option id].
  unfold MAX_TURNS. rewrite slice_last_snoc. eauto.
Qed.

Lemma stored_turns_after_answer (cfg : config) (w : world) (upd : update) (answer : str) :
  ∃ pre, stored_turns (after_answer cfg w upd answer) (effective_user upd)
         = pre ++ [(user, strip (default [] (message_text upd))); (assistant, answer)].
Proof.
  destruct (stored_turns_after_user w upd) as [pre Hpre].
  unfold after_answer, stored_turns at 1, set_turns, log. cbn [USER_TURNS].
  rewrite lookup_insert_eq. cbn [from_option id].
  unfold MAX_TURNS. rewrite slice_last_snoc, Hpre.
  rewrite drop_app_le by (rewrite length_app; simpl; lia).
  rewrite <- app_assoc. eauto.
Qed.

Lemma strip_decompose (s : str) :
  ∃ a b, all_space a = true ∧ all_space b = true ∧ s = a ++ strip s ++ b.
Proof.
  destruct (lstrip_decompose s) as (a & Ha & Hs).
  destruct (rstrip_decompose (lstrip s)) as (b & Hb & Hl).
  exists a, b. split; [done|]. split; [done|].
  unfold strip. by rewrite <- Hl.
Qed.

Lemma isspace_printable (c : N) : (33 ≤ c ≤ 126)%N → isspace c = false.
Proof.
  intros Hc. unfold isspace.
  repeat (apply orb_false_intro);
    first [ apply N.eqb_neq; lia
          | apply andb_false_iff; right; apply N.leb_gt; lia
          | apply andb_false_iff; left; apply N.leb_gt; lia ].
Qed.

(** C10. The text the handler stores is the inbound text without the
    whitespace at its two ends (the inbound text is some whitespace, the
    stored text, some whitespace, and the stored text neither starts nor ends
    with whitespace), so it is empty when the message has no text or only
    whitespace; tab, newline, carriage return and space are whitespace and
    the printable ASCII characters are not. The handler never
    rejects it: the first thing it does outside the process is to send a
    request whose last message is the user message with that text, its
    result is decided by the engine alone, and the stored turns end with the
    user turn (followed by the assistant turn when the engine answered). *)
Theorem inbound_text_is_stripped_and_always_stored
    (cfg : config) (engine : request → completion) (upd : update) (w : world) :
  is_stripped (strip (default [] (message_text upd))) = true
  ∧ (∃ a b, all_space a = true ∧ all_space b = true
            ∧ default [] (message_text upd)
              = a ++ strip (default [] (message_text upd)) ++ b)
  ∧ all_space [9; 10; 11; 12; 13; 32]%N = true
  ∧ (∀ c, (33 ≤ c ≤ 126)%N → isspace c = false)
  ∧ (message_text upd = None → strip (default [] (message_text upd)) = [])
  ∧ (∀ s, message_text upd = Some s → all_space s = true →
          strip (default [] (message_text upd)) = [])
  ∧ (∃ pre, stored_turns (store_user_message (effective_user upd)
                            (strip (default [] (message_text upd))) w).2
                         (effective_user upd)
            = pre ++ [(user, strip (default [] (message_text upd)))])
  ∧ (∃ r rest,
       trace (handle_message cfg engine upd w).2 = trace w ++ Completion r :: rest
       ∧ last (messages r) = Some (Message user (strip (default [] (message_text upd))))
       ∧ match extracted (engine r) with
         | Ok answer =>
           (handle_message cfg engine upd w).1 = Ok tt
           ∧ ∃ pre, stored_turns (handle_message cfg engine upd w).2 (effective_user upd)
                    = pre ++ [(user, strip (default [] (message_text upd)));
                              (assistant, answer)]
         | Raised e =>
           (handle_message cfg engine upd w).1 = Raised e
           ∧ ∃ pre, stored_turns (handle_message cfg engine upd w).2 (effective_user upd)
                    = pre ++ [(user, strip (default [] (message_text upd)))]
         end).
Proof.
  split; [apply strip_is_stripped|].
  split; [apply strip_decompose|].
  split; [reflexivity|].
  split; [apply isspace_printable|].
  split; [by intros ->|].
  split; [intros s -> Hs; by apply strip_all_space|].
  split.
  { rewrite store_user_message_eq. cbn [snd]. apply stored_turns_after_user. }
  exists (reply_request cfg (after_user w upd) (effective_user upd)).
  rewrite handle_message_eq.
  assert (Hlast : last (messages (reply_request cfg (after_user w upd) (effective_user upd)))
                  = Some (Message user (strip (default [] (message_text upd))))).
  { destruct (stored_turns_after_user w upd) as [pre Hpre].
    unfold reply_request, context_of. cbn [messages]. rewrite Hpre, map_app.
    rewrite !app_assoc. apply last_snoc. }
  destruct (extracted _) as [answer|e]; cbn [fst snd].
  - exists [ReplyText (effective_user upd) answer KEYBOARD].
    split; [|split; [done|split; [done|apply stored_turns_after_answer]]].
    unfold after_answer, after_request, log, set_turns. cbn [trace].
    by rewrite <- app_assoc.
  - exists []. split; [done|]. split; [done|]. split; [done|].
    apply stored_turns_after_user.
Qed.

(** A message without text and a message of whitespace only are both stored
    as the empty user turn and sent to the engine. *)
Example blank_messages_are_stored :
  stored_turns (step demo_cfg empty_world (Text (Update 1 None) (always (lit "B")))) 1
    = [(user, []); (assistant, lit "B")]
  ∧ stored_turns
      (step demo_cfg empty_world (Text (Update 1 (Some (lit "  " ++ nl))) (always (lit "B")))) 1
    = [(user, []); (assistant, lit "B")]
  ∧ head (trace (step demo_cfg empty_world (Text (Update 1 None) (always (lit "B")))))
    = Some (Completion
              (Request (MODEL demo_cfg)
                 [Message system SYSTEM_PROMPT; Message user []] REPLY_TEMPERATURE)).
Proof. vm_compute. repeat split; reflexivity. Qed.

(** A text with whitespace around it is stored without it, inner whitespace
    kept. *)
Example padded_message_is_stored_stripped :
  stored_turns
    (step demo_cfg empty_world
       (Text (Update 1 (Some (lit "  hello  world " ++ nl))) (always (lit " B "))))
    1
  = [(user, lit "hello  world"); (assistant, lit "B")].
Proof. vm_compute. reflexivity. Qed.

(** ** Further properties of the handlers *)

Lemma slice_last_window {A} (n : nat) (l k : list A) :
  slice_last n (slice_last n l ++ k) = slice_last n (l ++ k).
Proof.
  destruct n as [|n]; [done|].
  destruct (decide (length l ≤ S n)%nat) as [Hle|Hgt].
  { by rewrite (slice_last_all (S n) l). }
  unfold slice_last. rewrite !length_app, length_drop.
  replace (length l - (length l - S n) + length k - S n)%nat with (length k) by lia.
  replace (length l + length k - S n)%nat with ((length l - S n) + length k)%nat by lia.
  rewrite <- drop_drop. f_equal. symmetry. apply drop_app_le. lia.
Qed.

Lemma reply_request_eq (cfg : config) (w : world) (upd : update) :
  reply_request cfg (after_user w upd) (effective_user upd)
  = Request (MODEL cfg)
      (reply_messages w (effective_user upd) (strip (default [] (message_text upd))))
      REPLY_TEMPERATURE.
Proof.
  unfold reply_request, context_of, reply_messages. f_equal.
  assert (HS : stored_summary (after_user w upd) (effective_user upd)
               = stored_summary w (effective_user upd)) by done.
  assert (HT : stored_turns (after_user w upd) (effective_user upd)
               = slice_last MAX_TURNS
                   (stored_turns w (effective_user upd)
                    ++ [(user, strip (default [] (message_text upd)))])).
  { unfold after_user, stored_turns at 1, set_turns. cbn [USER_TURNS].
    by rewrite lookup_insert_eq. }
  rewrite HS, HT. unfold truthy.
  by destruct (stored_summary w (effective_user upd)).
Qed.

Lemma after_answer_eq (cfg : config) (w : world) (upd : update) (answer : str) :
  after_answer cfg w upd answer
  = World (USER_SUMMARY w)
      (<[effective_user upd :=
           slice_last MAX_TURNS
             (stored_turns w (effective_user upd)
              ++ [(user, strip (default [] (message_text upd))); (assistant, answer)])]>
         (USER_TURNS w))
      (trace w
       ++ [Completion (reply_request cfg (after_user w upd) (effective_user upd));
           ReplyText (effective_user upd) answer KEYBOARD]).
Proof.
  unfold after_answer, after_request, log, set_turns. cbn [USER_SUMMARY USER_TURNS trace].
  f_equal.
  - unfold after_user at 2, set_turns. cbn [USER_TURNS]. rewrite insert_insert_eq.
    f_equal. unfold after_user, stored_turns at 1, set_turns. cbn [USER_TURNS].
    rewrite lookup_insert_eq. cbn [from_option id].
    rewrite slice_last_window, <- app_assoc. done.
  - by rewrite <- app_assoc.
Qed.

(** X1. When the engine's answer to the reply request can be read, the
    message handler returns normally; it has sent that one request and one
    reply, the stripped answer with the keyboard, to the sender; the sender's
    buffer is the last [MAX_TURNS] entries of the old buffer followed by the
    user turn and the assistant turn; the summaries are untouched. *)
Theorem handle_message_answered
    (cfg : config) (engine : request → completion) (upd : update) (w : world)
    (answer : str) :
  extracted (engine (Request (MODEL cfg)
               (reply_messages w (effective_user upd)
                  (strip (default [] (message_text upd))))
               REPLY_TEMPERATURE)) = Ok answer →
  handle_message cfg engine upd w
  = (Ok tt,
     World (USER_SUMMARY w)
       (<[effective_user upd :=
            slice_last MAX_TURNS
              (stored_turns w (effective_user upd)
               ++ [(user, strip (default [] (message_text upd)));
                   (assistant, answer)])]> (USER_TURNS w))
       (trace w
        ++ [Completion (Request (MODEL cfg)
                          (reply_messages w (effective_user upd)
                             (strip (default [] (message_text upd))))
                          REPLY_TEMPERATURE);
            ReplyText (effective_user upd) answer KEYBOARD])).
Proof.
  intros Hans. rewrite handle_message_eq, reply_request_eq, Hans.
  by rewrite after_answer_eq, reply_request_eq.
Qed.

(** A full buffer: the two oldest turns leave, the new exchange enters. *)
Lemma handle_message_answered_witness :
  (handle_message demo_cfg (always (lit " K ")) (Update 1 (Some (lit "Q")))
     (World ∅ {[ 1%Z := slice_last 8 ten_turns ]} [])).1 = Ok tt
  ∧ stored_turns
      (handle_message demo_cfg (always (lit " K ")) (Update 1 (Some (lit "Q")))
         (World ∅ {[ 1%Z := slice_last 8 ten_turns ]} [])).2 1
    = [(user, lit "E"); (assistant, lit "F"); (user, lit "G"); (assistant, lit "H");
       (user, lit "I"); (assistant, lit "J"); (user, lit "Q"); (assistant, lit "K")].
Proof.
  rewrite (handle_message_answered demo_cfg (always (lit " K "))
             (Update 1 (Some (lit "Q")))
             (World ∅ {[ 1%Z := slice_last 8 ten_turns ]} []) (lit "K") eq_refl).
  split; [reflexivity|]. vm_compute. reflexivity.
Defined.

(** X2. When the engine raises on the reply request, or its response has no
    choice or no content, the exception leaves the message handler: no reply
    is sent and no warning is logged; the user turn stays in the buffer
    and the summaries are untouched. *)
Theorem handle_message_engine_failure
    (cfg : config) (engine : request → completion) (upd : update) (w : world)
    (e : exn) :
  extracted (engine (Request (MODEL cfg)
               (reply_messages w (effective_user upd)
                  (strip (default [] (message_text upd))))
               REPLY_TEMPERATURE)) = Raised e →
  handle_message cfg engine upd w
  = (Raised e,
     World (USER_SUMMARY w)
       (<[effective_user upd :=
            slice_last MAX_TURNS
              (stored_turns w (effective_user upd)
               ++ [(user, strip (default [] (message_text upd)))])]> (USER_TURNS w))
       (trace w
        ++ [Completion (Request (MODEL cfg)
                          (reply_messages w (effective_user upd)
                             (strip (default [] (message_text upd))))
                          REPLY_TEMPERATURE)])).
Proof.
  intros Hfail. rewrite handle_message_eq, reply_request_eq, Hfail.
  unfold after_request. by rewrite reply_request_eq.
Qed.

Lemma handle_message_engine_failure_witness :
  (handle_message demo_cfg (λ _, Response [None]) (Update 1 (Some (lit "Q")))
     empty_world).1 = Raised AttributeError
  ∧ stored_turns
      (handle_message demo_cfg (λ _, Response [None]) (Update 1 (Some (lit "Q")))
         empty_world).2 1 = [(user, lit "Q")]
  ∧ replies (trace (handle_message demo_cfg (λ _, Response [None])
                      (Update 1 (Some (lit "Q"))) empty_world).2) = [].
Proof.
  rewrite (handle_message_engine_failure demo_cfg (λ _, Response [None])
             (Update 1 (Some (lit "Q"))) empty_world AttributeError eq_refl).
  split; [reflexivity|]. split; vm_compute; reflexivity.
Defined.

Lemma run_cons (cfg : config) (i : input) (ins : list input) (w : world) :
  run cfg (i :: ins) w = run cfg ins (step cfg w i).
Proof. done. Qed.

(** X3. A run of answered messages of one user, started in a store where
    that user's buffer is within bounds, leaves the last [MAX_TURNS] entries
    of the old buffer followed by all the new turns, in order, and leaves
    the summaries as they were. *)
Theorem answered_run_keeps_last_turns
    (cfg : config) (u : Z) (qas : list (str * str)) (w : world) :
  (turn_count w u ≤ MAX_TURNS)%nat →
  stored_turns (run cfg (map (answered u) qas) w) u
  = slice_last MAX_TURNS (stored_turns w u ++ concat (map exchange_turns qas))
  ∧ USER_SUMMARY (run cfg (map (answered u) qas) w) = USER_SUMMARY w.
Proof.
  revert w. induction qas as [|[q a] qas IH]; intros w Hle.
  - cbn [map run foldl concat]. rewrite app_nil_r.
    split; [|done]. symmetry. by apply slice_last_all.
  - cbn [map]. rewrite run_cons.
    change (step cfg w (answered u (q, a)))
      with (handle_message cfg (always a) (Update u (Some q)) w).2.
    rewrite (handle_message_answered cfg (always a) (Update u (Some q)) w (strip a) eq_refl).
    cbn [snd effective_user message_text fst from_option id].
    set (w1 := World _ _ _).
    assert (H1 : stored_turns w1 u
                 = slice_last MAX_TURNS (stored_turns w u ++ exchange_turns (q, a))).
    { unfold stored_turns at 1, w1. cbn [USER_TURNS]. by rewrite lookup_insert_eq. }
    assert (Hle1 : (turn_count w1 u ≤ MAX_TURNS)%nat).
    { unfold turn_count. rewrite H1, slice_last_length by (unfold MAX_TURNS; lia). lia. }
    destruct (IH w1 Hle1) as [IH1 IH2]. rewrite IH1, IH2, H1.
    split; [|done]. rewrite slice_last_window. cbn [map concat]. by rewrite app_assoc.
Qed.

Lemma answered_run_keeps_last_turns_witness :
  stored_turns
    (run demo_cfg (map (answered 1) [(lit "A", lit "B"); (lit " C", lit "D ")]) empty_world) 1
  = slice_last MAX_TURNS
      (stored_turns empty_world 1
       ++ concat (map exchange_turns [(lit "A", lit "B"); (lit " C", lit "D ")])).
Proof.
  apply (answered_run_keeps_last_turns demo_cfg 1
           [(lit "A", lit "B"); (lit " C", lit "D ")] empty_world).
  vm_compute. lia.
Defined.

Lemma step_other_user (cfg : config) (w : world) (i : input) (u : Z) :
  sender i ≠ u →
  USER_TURNS (step cfg w i) !! u = USER_TURNS w !! u
  ∧ USER_SUMMARY (step cfg w i) !! u = USER_SUMMARY w !! u.
Proof.
  intros Hne. unfold step.
  destruct i as [upd|upd|upd|upd|upd engine]; cbv beta iota delta [dispatch];
    cbn [sender] in Hne.
  - by destruct (command_store_unchanged start upd w) as [t ->]; [auto|].
  - rewrite reset_eq. cbn [snd]. unfold after_reset. cbn [USER_TURNS USER_SUMMARY].
    by rewrite !lookup_delete_ne.
  - by destruct (command_store_unchanged summary_cmd upd w) as [t ->]; [auto|].
  - by destruct (command_store_unchanged mirror_cmd upd w) as [t ->]; [auto|].
  - rewrite handle_message_eq. destruct (extracted _) as [answer|e]; cbn [snd].
    + rewrite after_answer_eq. cbn [USER_TURNS USER_SUMMARY].
      by rewrite lookup_insert_ne.
    + unfold after_request, after_user, log, set_turns. cbn [USER_TURNS USER_SUMMARY].
      by rewrite lookup_insert_ne.
Qed.

(** X4. Whatever other users send, and whatever the engine does with it,
    a user's buffer and summary stay as they are. *)
Theorem other_users_inputs_leave_session
    (cfg : config) (ins : list input) (w : world) (u : Z) :
  Forall (λ i, sender i ≠ u) ins →
  USER_TURNS (run cfg ins w) !! u = USER_TURNS w !! u
  ∧ USER_SUMMARY (run cfg ins w) !! u = USER_SUMMARY w !! u.
Proof.
  intros Hall. revert w. induction Hall as [|i ins Hi _ IH]; intros w; [done|].
  rewrite run_cons. destruct (IH (step cfg w i)) as [-> ->].
  by apply step_other_user.
Qed.

Lemma other_users_inputs_leave_session_witness :
  USER_TURNS (run demo_cfg [Text (Update 2 (Some (lit "x"))) (always (lit "y"));
                            CmdReset (Update 3 None)] ten_turn_world) !! 1%Z
  = USER_TURNS ten_turn_world !! 1%Z
  ∧ USER_SUMMARY (run demo_cfg [Text (Update 2 (Some (lit "x"))) (always (lit "y"));
                                CmdReset (Update 3 None)] ten_turn_world) !! 1%Z
  = USER_SUMMARY ten_turn_world !! 1%Z.
Proof.
  apply (other_users_inputs_leave_session demo_cfg
           [Text (Update 2 (Some (lit "x"))) (always (lit "y")); CmdReset (Update 3 None)]
           ten_turn_world 1).
  repeat constructor; simpl; lia.
Defined.

(** ** Invariants of the stored turns and of the requests *)

Lemma elem_of_slice_last {A} (n : nat) (l : list A) (x : A) :
  x ∈ slice_last n l → x ∈ l.
Proof.
  intros Hx. destruct (slice_last_suffix n l) as [k Hk].
  rewrite Hk. apply elem_of_app. by right.
Qed.

Lemma turn_ok_user (s : str) : turn_ok (user, strip s).
Proof. split; [done|]. apply strip_is_stripped. Qed.

Lemma stored_turns_set_turns (w : world) (u u' : Z) (l : list turn) :
  stored_turns (set_turns w u l) u' = if decide (u = u') then l else stored_turns w u'.
Proof.
  unfold stored_turns, set_turns. cbn [USER_TURNS]. rewrite lookup_insert.
  by destruct (decide (u = u')).
Qed.

Lemma turns_inv_empty_world : turns_inv empty_world.
Proof.
  intros u t Ht. unfold stored_turns in Ht. cbn [USER_TURNS empty_world] in Ht.
  rewrite lookup_empty in Ht. by apply not_elem_of_nil in Ht.
Qed.

Lemma turns_inv_after_user (w : world) (upd : update) :
  turns_inv w → turns_inv (after_user w upd).
Proof.
  intros Hw u t. unfold after_user. rewrite stored_turns_set_turns.
  destruct (decide (effective_user upd = u)) as [_|_]; [|apply Hw].
  intros Ht%elem_of_slice_last. apply elem_of_app in Ht as [Ht|Ht]; [by eapply Hw|].
  apply list_elem_of_singleton in Ht as ->. apply turn_ok_user.
Qed.

Lemma turns_inv_after_answer (cfg : config) (w : world) (upd : update) (answer : str) :
  is_stripped answer = true →
  turns_inv w → turns_inv (after_answer cfg w upd answer).
Proof.
  intros Hans Hw u t. unfold after_answer.
  change (stored_turns (log ?w' ?ev) u) with (stored_turns w' u).
  rewrite stored_turns_set_turns.
  destruct (decide (effective_user upd = u)) as [_|_].
  - intros Ht%elem_of_slice_last. apply elem_of_app in Ht as [Ht|Ht].
    + by eapply (turns_inv_after_user w upd Hw).
    + apply list_elem_of_singleton in Ht as ->. by split.
  - apply (turns_inv_after_user w upd Hw).
Qed.

Lemma turns_inv_step (cfg : config) (w : world) (i : input) :
  turns_inv w → turns_inv (step cfg w i).
Proof.
  intros Hw. unfold step.
  destruct i as [upd|upd|upd|upd|upd engine]; cbv beta iota delta [dispatch].
  - by destruct (command_store_unchanged start upd w) as [t ->]; [auto|].
  - rewrite reset_eq. intros u t. unfold stored_turns, after_reset.
    cbn [snd USER_TURNS]. rewrite lookup_delete.
    destruct (decide (effective_user upd = u)) as [_|_]; [|apply Hw].
    cbn. by intros ?%not_elem_of_nil.
  - by destruct (command_store_unchanged summary_cmd upd w) as [t ->]; [auto|].
  - by destruct (command_store_unchanged mirror_cmd upd w) as [t ->]; [auto|].
  - rewrite handle_message_eq. destruct (extracted _) as [answer|e] eqn:Hex; cbn [snd].
    + apply turns_inv_after_answer; [|done]. by eapply extracted_is_stripped.
    + by apply turns_inv_after_user.
Qed.

Lemma turns_inv_run (cfg : config) (ins : list input) (w : world) :
  turns_inv w → turns_inv (run cfg ins w).
Proof.
  revert w. induction ins as [|i ins IH]; intros w Hw; [done|].
  rewrite run_cons. apply IH. by apply turns_inv_step.
Qed.

(** X6. Every turn stored in a reachable world is a user or an assistant
    turn (never a system one) and its text has no leading or trailing
    whitespace. *)
Theorem stored_turns_are_stripped_dialogue
    (cfg : config) (ins : list input) (u : Z) (t : turn) :
  t ∈ stored_turns (run cfg ins empty_world) u →
  (t.1 = user ∨ t.1 = assistant) ∧ strip t.2 = t.2.
Proof.
  intros Ht.
  destruct (turns_inv_run cfg ins empty_world turns_inv_empty_world u t Ht) as [Hr Hs].
  split; [|by apply strip_id]. destruct t as [[| |] c]; auto. by destruct Hr.
Qed.

Lemma stored_turns_are_stripped_dialogue_witness :
  ((user, lit "I").1 = user ∨ (user, lit "I").1 = assistant)
  ∧ strip (user, lit "I").2 = (user, lit "I").2.
Proof.
  apply (stored_turns_are_stripped_dialogue demo_cfg five_exchanges 1 (user, lit "I")).
  vm_compute. repeat constructor.
Defined.

Lemma reply_request_ok (cfg : config) (w : world) (upd : update) :
  USER_SUMMARY w = ∅ → turns_inv w →
  request_ok cfg (reply_request cfg (after_user w upd) (effective_user upd)).
Proof.
  intros HS HT. rewrite reply_request_eq. split; [done|]. split; [done|].
  exists (drop (length (stored_turns w (effective_user upd)) - 7)
            (stored_turns w (effective_user upd))),
         (strip (default [] (message_text upd))).
  split; [|split; [|split]].
  - unfold reply_messages, stored_summary. rewrite HS, lookup_empty.
    cbn [from_option id app]. unfold MAX_TURNS. by rewrite slice_last_snoc.
  - rewrite length_drop. unfold MAX_TURNS. lia.
  - apply Forall_drop, Forall_forall. intros t Ht. by eapply HT.
  - apply strip_is_stripped.
Qed.

Lemma requests_inv_step (cfg : config) (w : world) (i : input) :
  reachable_inv w → turns_inv w → requests_inv cfg w → requests_inv cfg (step cfg w i).
Proof.
  intros [HS _ _] HT HR r. unfold step.
  assert (Hlog : ∀ u text k,
    Completion r ∈ trace (log w (ReplyText u text k)) → request_ok cfg r).
  { intros u text k Hr. cbn [trace log] in Hr.
    apply elem_of_app in Hr as [Hr|Hr]; [by apply HR|].
    by apply list_elem_of_singleton in Hr. }
  destruct i as [upd|upd|upd|upd|upd engine]; cbv beta iota delta [dispatch].
  - destruct (command_store_unchanged start upd w) as [t ->]; [auto|]. apply Hlog.
  - rewrite reset_eq. apply Hlog.
  - destruct (command_store_unchanged summary_cmd upd w) as [t ->]; [auto|]. apply Hlog.
  - destruct (command_store_unchanged mirror_cmd upd w) as [t ->]; [auto|]. apply Hlog.
  - rewrite handle_message_eq. destruct (extracted _) as [answer|e]; cbn [snd].
    + rewrite after_answer_eq. cbn [trace]. intros Hr.
      apply elem_of_app in Hr as [Hr|Hr]; [by apply HR|].
      apply elem_of_cons in Hr as [Hr|Hr].
      * inversion Hr. by apply reply_request_ok.
      * by apply list_elem_of_singleton in Hr.
    + unfold after_request, log. cbn [trace]. intros Hr.
      apply elem_of_app in Hr as [Hr|Hr]; [by apply HR|].
      apply list_elem_of_singleton in Hr. inversion Hr. by apply reply_request_ok.
Qed.

Lemma requests_inv_run (cfg : config) (ins : list input) (w : world) :
  reachable_inv w → turns_inv w → requests_inv cfg w → requests_inv cfg (run cfg ins w).
Proof.
  revert w. induction ins as [|i ins IH]; intros w H1 H2 H3; [done|].
  rewrite run_cons. apply IH.
  - by apply inv_step.
  - by apply turns_inv_step.
  - by apply requests_inv_step.
Qed.

(** X5. Every request sent in a run from the empty store names the
    configured model and consists of the instruction message followed by at
    most [MAX_TURNS] stored turns, the last of which is the user turn just
    received; there is never a summary message, so a request has between two
    and nine messages. *)
Theorem requests_are_bounded_dialogues
    (cfg : config) (ins : list input) (r : request) :
  Completion r ∈ trace (run cfg ins empty_world) →
  model r = MODEL cfg
  ∧ (∃ pre text,
       messages r
       = Message system SYSTEM_PROMPT
         :: map (λ t, Message t.1 t.2) (pre ++ [(user, text)])
       ∧ Forall (λ t, t.1 = user ∨ t.1 = assistant) pre)
  ∧ (2 ≤ length (messages r) ≤ MAX_TURNS + 1)%nat.
Proof.
  intros Hr.
  destruct (requests_inv_run cfg ins empty_world inv_empty_world turns_inv_empty_world)
    with (r := r) as (Hm & _ & pre & text & Hmsg & Hlen & Hpre & _); [| done |].
  { intros r' Hr'. by apply not_elem_of_nil in Hr'. }
  split; [done|]. split.
  - exists pre, text. split; [done|].
    eapply Forall_impl; [exact Hpre|]. intros [[| |] c] [Hrole _]; auto. done.
  - rewrite Hmsg. cbn [length]. rewrite length_map, length_app. cbn [length]. lia.
Qed.

Lemma requests_are_bounded_dialogues_witness :
  model (Request (MODEL demo_cfg)
           [Message system SYSTEM_PROMPT; Message user (lit "A")] REPLY_TEMPERATURE)
  = MODEL demo_cfg
  ∧ (2 ≤ length [Message system SYSTEM_PROMPT; Message user (lit "A")] ≤ MAX_TURNS + 1)%nat.
Proof.
  pose proof (requests_are_bounded_dialogues demo_cfg [exchange "A" "B"]
                (Request (MODEL demo_cfg)
                   [Message system SYSTEM_PROMPT; Message user (lit "A")]
                   REPLY_TEMPERATURE)) as H.
  destruct H as (H1 & _ & H3).
  - vm_compute. constructor.
  - split; [exact H1 | exact H3].
Defined.

(** ** Replies and engine calls of the dispatcher *)

Lemma replies_snoc (tr : list event) (ev : event) :
  replies (tr ++ [ev])
  = replies tr ++ match ev with ReplyText u text k => [(u, text, k)] | _ => [] end.
Proof. unfold replies. rewrite omap_app. by destruct ev. Qed.

(** X7. A handler that returns normally has sent exactly one reply, to the
    sender of the update and with the keyboard. *)
Theorem one_reply_per_handled_update (cfg : config) (w : world) (i : input) :
  (dispatch cfg i w).1 = Ok tt →
  ∃ text, replies (trace (step cfg w i))
          = replies (trace w) ++ [(sender i, text, KEYBOARD)].
Proof.
  unfold step.
  destruct i as [upd|upd|upd|upd|upd engine]; cbv beta iota delta [dispatch sender].
  - destruct (command_store_unchanged start upd w) as [t ->]; [auto|].
    cbn [fst snd log trace]. rewrite replies_snoc. eauto.
  - rewrite reset_eq. cbn [fst snd after_reset trace]. rewrite replies_snoc. eauto.
  - destruct (command_store_unchanged summary_cmd upd w) as [t ->]; [auto|].
    cbn [fst snd log trace]. rewrite replies_snoc. eauto.
  - destruct (command_store_unchanged mirror_cmd upd w) as [t ->]; [auto|].
    cbn [fst snd log trace]. rewrite replies_snoc. eauto.
  - rewrite handle_message_eq. destruct (extracted _) as [answer|e]; cbn [fst snd].
    + intros _. exists answer. rewrite after_answer_eq. cbn [trace].
      change [Completion ?r; ?ev] with ([Completion r] ++ [ev]).
      rewrite app_assoc, !replies_snoc. by rewrite app_nil_r.
    + discriminate.
Qed.

Lemma one_reply_per_handled_update_witness :
  ∃ text,
    replies (trace (step demo_cfg ten_turn_world (exchange "Q" " B ")))
    = replies (trace ten_turn_world) ++ [(sender (exchange "Q" " B "), text, KEYBOARD)].
Proof.
  apply (one_reply_per_handled_update demo_cfg ten_turn_world (exchange "Q" " B ")).
  vm_compute. reflexivity.
Defined.

Lemma request_temperatures_step (cfg : config) (w : world) (i : input) :
  request_temperatures (trace (step cfg w i))
  = request_temperatures (trace w) ++ (if is_text i then [REPLY_TEMPERATURE] else []).
Proof.
  unfold step.
  destruct i as [upd|upd|upd|upd|upd engine]; cbv beta iota delta [dispatch is_text].
  - destruct (command_store_unchanged start upd w) as [t ->]; [auto|].
    cbn [snd log trace]. by rewrite request_temperatures_snoc.
  - rewrite reset_eq. cbn [snd after_reset trace]. by rewrite request_temperatures_snoc.
  - destruct (command_store_unchanged summary_cmd upd w) as [t ->]; [auto|].
    cbn [snd log trace]. by rewrite request_temperatures_snoc.
  - destruct (command_store_unchanged mirror_cmd upd w) as [t ->]; [auto|].
    cbn [snd log trace]. by rewrite request_temperatures_snoc.
  - rewrite handle_message_eq. destruct (extracted _) as [answer|e]; cbn [snd].
    + rewrite after_answer_eq. cbn [trace].
      change [Completion ?r; ?ev] with ([Completion r] ++ [ev]).
      rewrite app_assoc, !request_temperatures_snoc. by rewrite app_nil_r.
    + unfold after_request, log. cbn [trace]. by rewrite request_temperatures_snoc.
Qed.

(** X8. From any store and whatever the engine does, a run makes exactly one
    engine call per text message, each at the reply temperature, and none for
    the commands. *)
Theorem one_engine_call_per_text (cfg : config) (ins : list input) (w : world) :
  request_temperatures (trace (run cfg ins w))
  = request_temperatures (trace w)
    ++ replicate (length (filter (λ i, is_text i = true) ins)) REPLY_TEMPERATURE.
Proof.
  revert w. induction ins as [|i ins IH]; intros w.
  - cbn. by rewrite app_nil_r.
  - rewrite run_cons, IH, request_temperatures_step, <- app_assoc. f_equal.
    rewrite filter_cons. destruct i; cbn [is_text]; by case_decide.
Qed.

(** X9. In every reachable world [/summary] answers with the placeholder
    text, for every user, and changes neither dictionary. *)
Theorem summary_cmd_always_placeholder
    (cfg : config) (ins : list input) (upd : update) :
  summary_cmd upd (run cfg ins empty_world)
  = (Ok tt,
     World (USER_SUMMARY (run cfg ins empty_world)) (USER_TURNS (run cfg ins empty_world))
       (trace (run cfg ins empty_world)
        ++ [ReplyText (effective_user upd)
              (lit "Текущее саммари:" ++ nl ++ lit "(пока пусто)") KEYBOARD])).
Proof.
  destruct (inv_run cfg ins empty_world inv_empty_world) as [HS _ _].
  destruct (run cfg ins empty_world) as [S T tr]. cbn [USER_SUMMARY] in HS. subst S.
  unfold summary_cmd, reply_text. unfold_m. by rewrite lookup_empty.
Qed.

(** ** Further properties of the compression step *)

(** X10. The guarded compression call never raises, whatever the store and
    whatever the engine does, and it leaves the other users' entries of both
    dictionaries alone. *)
Theorem update_memory_guarded_never_raises
    (cfg : config) (engine : request → completion) (user_id : Z) (w : world) :
  (update_memory_guarded cfg engine user_id w).1 = Ok tt
  ∧ ∀ u, u ≠ user_id →
      USER_TURNS (update_memory_guarded cfg engine user_id w).2 !! u = USER_TURNS w !! u
      ∧ USER_SUMMARY (update_memory_guarded cfg engine user_id w).2 !! u
        = USER_SUMMARY w !! u.
Proof.
  destruct (decide (turn_count w user_id < 10)%nat) as [Hlt|Hge].
  { by rewrite update_memory_guarded_below. }
  apply Nat.nlt_ge in Hge.
  destruct (extracted (engine (compress_request cfg (stored_turns w user_id))))
    as [new|e] eqn:Hex.
  - unfold update_memory_guarded, try_except.
    rewrite _update_memory_eq by done. cbv zeta. rewrite Hex.
    split; [done|]. intros u Hne. cbn [snd USER_TURNS USER_SUMMARY].
    by rewrite !lookup_insert_ne.
  - destruct (update_memory_guarded_raises cfg engine user_id w e Hge Hex) as [_ ->].
    done.
Qed.

(** X11. Right after a compression that succeeded the buffer holds six
    turns, so a second call of the compression step returns at its guard:
    it sends nothing and changes nothing. *)
Theorem compression_is_not_repeated
    (cfg : config) (engine engine' : request → completion) (user_id : Z) (w : world) :
  (10 ≤ turn_count w user_id)%nat →
  (_update_memory cfg engine user_id w).1 = Ok tt →
  _update_memory cfg engine' user_id (_update_memory cfg engine user_id w).2
  = (Ok tt, (_update_memory cfg engine user_id w).2).
Proof.
  intros Hge. rewrite _update_memory_eq by done. cbv zeta.
  destruct (extracted _) as [new|e]; cbn [fst snd]; [|done]. intros _.
  apply _update_memory_below.
  unfold turn_count at 1, stored_turns at 1. cbn [USER_TURNS].
  rewrite lookup_insert_eq. cbn [from_option id].
  rewrite slice_last_length by lia. lia.
Qed.

Lemma compression_is_not_repeated_witness :
  _update_memory demo_cfg (broken (APIError 500)) 1
    (_update_memory demo_cfg (always (lit "S")) 1 ten_turn_world).2
  = (Ok tt, (_update_memory demo_cfg (always (lit "S")) 1 ten_turn_world).2).
Proof.
  apply (compression_is_not_repeated demo_cfg (always (lit "S")) (broken (APIError 500))
           1 ten_turn_world).
  - vm_compute. lia.
  - vm_compute. reflexivity.
Defined.

(** X12. After a compression that succeeded, the context built for the user
    is the instruction message, the summary message when the new summary is
    non-empty, and the six turns that were kept: at most eight messages. *)
Theorem context_after_compression
    (cfg : config) (engine : request → completion) (user_id : Z) (w : world)
    (new : str) :
  (10 ≤ turn_count w user_id)%nat →
  extracted (engine (compress_request cfg (stored_turns w user_id))) = Ok new →
  (_get_history user_id (_update_memory cfg engine user_id w).2).1
  = Ok ([Message system SYSTEM_PROMPT]
        ++ match strip (stored_summary w user_id ++ nl ++ new) with
           | [] => []
           | _ :: _ =>
             [Message system
                (SUMMARY_PREFIX ++ strip (stored_summary w user_id ++ nl ++ new))]
           end
        ++ map (λ t, Message t.1 t.2) (slice_last 6 (stored_turns w user_id)))
  ∧ length (slice_last 6 (stored_turns w user_id)) = 6%nat.
Proof.
  intros Hge Hnew. rewrite _get_history_eq. cbn [fst].
  rewrite _update_memory_eq by done. cbv zeta. rewrite Hnew. cbn [snd].
  set (prev := stored_summary w user_id).
  set (turns := stored_turns w user_id).
  set (w' := World _ _ _).
  assert (HS : stored_summary w' user_id = strip (prev ++ nl ++ new)).
  { unfold stored_summary, w'. cbn [USER_SUMMARY]. by rewrite lookup_insert_eq. }
  assert (HT : stored_turns w' user_id = slice_last 6 turns).
  { unfold stored_turns at 1, w'. cbn [USER_TURNS]. by rewrite lookup_insert_eq. }
  unfold context_of. rewrite HS, HT. split.
  - unfold truthy. by destruct (strip _).
  - rewrite slice_last_length by lia. unfold turn_count in Hge. fold turns in Hge. lia.
Qed.

Lemma context_after_compression_witness :
  (_get_history 1 (_update_memory demo_cfg (always (lit "S")) 1 ten_turn_world).2).1
  = Ok ([Message system SYSTEM_PROMPT]
        ++ match strip (stored_summary ten_turn_world 1 ++ nl ++ lit "S") with
           | [] => []
           | _ :: _ =>
             [Message system
                (SUMMARY_PREFIX ++ strip (stored_summary ten_turn_world 1 ++ nl ++ lit "S"))]
           end
        ++ map (λ t, Message t.1 t.2) (slice_last 6 (stored_turns ten_turn_world 1)))
  ∧ length (slice_last 6 (stored_turns ten_turn_world 1)) = 6%nat.
Proof.
  apply (context_after_compression demo_cfg (always (lit "S")) 1 ten_turn_world (lit "S")).
  - vm_compute. lia.
  - reflexivity.
Defined.

(** X13. When no summary is stored and the engine's answer to the
    compression request is blank, the step stores the empty string as the
    summary. [/summary] then shows an empty summary instead of the
    placeholder, while the context carries no summary message. *)
Theorem blank_compression_stores_empty_summary
    (cfg : config) (engine : request → completion) (upd : update) (w : world) :
  (10 ≤ turn_count w (effective_user upd))%nat →
  stored_summary w (effective_user upd) = [] →
  extracted (engine (compress_request cfg (stored_turns w (effective_user upd)))) = Ok [] →
  USER_SUMMARY (_update_memory cfg engine (effective_user upd) w).2 !! effective_user upd
  = Some []
  ∧ replies (trace (summary_cmd upd (_update_memory cfg engine (effective_user upd) w).2).2)
    = replies (trace w)
      ++ [(effective_user upd, lit "Текущее саммари:" ++ nl, KEYBOARD)]
  ∧ (_get_history (effective_user upd)
       (_update_memory cfg engine (effective_user upd) w).2).1
    = Ok (Message system SYSTEM_PROMPT
          :: map (λ t, Message t.1 t.2)
               (slice_last 6 (stored_turns w (effective_user upd)))).
Proof.
  intros Hge Hprev Hnew.
  rewrite _get_history_eq. rewrite _update_memory_eq by done. cbv zeta.
  rewrite Hnew, Hprev. cbn [snd fst].
  change (strip ([] ++ nl ++ [])) with (@nil N).
  split; [apply lookup_insert_eq|]. split.
  - unfold summary_cmd, reply_text. unfold_m. rewrite lookup_insert_eq.
    cbn [from_option id snd]. rewrite !replies_snoc. by rewrite !app_nil_r.
  - unfold context_of, stored_summary, stored_turns. cbn [USER_SUMMARY USER_TURNS].
    by rewrite !lookup_insert_eq.
Qed.

Lemma blank_compression_stores_empty_summary_witness :
  USER_SUMMARY (_update_memory demo_cfg (always (lit "  ")) 1 ten_turn_world).2 !! 1%Z
  = Some [].
Proof.
  apply (blank_compression_stores_empty_summary demo_cfg (always (lit "  "))
           (Update 1 None) ten_turn_world).
  - vm_compute. lia.
  - reflexivity.
  - reflexivity.
Defined.

(** ** Reset followed by a message, and the startup configuration *)

(** X14. The first message a user sends after [/reset] goes to the engine
    with no memory at all, whatever was stored before: the request holds the
    instruction message and that message only. *)
Theorem message_after_reset_has_no_memory
    (cfg : config) (engine : request → completion) (upd upd' : update) (w : world) :
  effective_user upd' = effective_user upd →
  ∃ rest,
    trace (handle_message cfg engine upd' (reset upd w).2).2
    = trace (reset upd w).2
      ++ Completion (Request (MODEL cfg)
                       [Message system SYSTEM_PROMPT;
                        Message user (strip (default [] (message_text upd')))]
                       REPLY_TEMPERATURE) :: rest.
Proof.
  intros Hu. rewrite reset_eq. cbn [snd]. rewrite handle_message_eq, reply_request_eq.
  assert (Hmsgs : reply_messages (after_reset w upd) (effective_user upd')
                    (strip (default [] (message_text upd')))
                  = [Message system SYSTEM_PROMPT;
                     Message user (strip (default [] (message_text upd')))]).
  { unfold reply_messages, stored_summary, stored_turns, after_reset.
    cbn [USER_SUMMARY USER_TURNS]. rewrite Hu, !lookup_delete_eq. done. }
  destruct (extracted _) as [answer|e]; cbn [snd].
  - exists [ReplyText (effective_user upd') answer KEYBOARD].
    rewrite after_answer_eq, reply_request_eq, Hmsgs. done.
  - exists []. unfold after_request, log. cbn [trace].
    by rewrite reply_request_eq, Hmsgs.
Qed.

Lemma message_after_reset_has_no_memory_witness :
  ∃ rest,
    trace (handle_message demo_cfg (always (lit "B")) (Update 1 (Some (lit "Q")))
             (reset (Update 1 None) ten_turn_world).2).2
    = trace (reset (Update 1 None) ten_turn_world).2
      ++ Completion (Request (MODEL demo_cfg)
                       [Message system SYSTEM_PROMPT;
                        Message user
                          (strip (default [] (message_text (Update 1 (Some (lit "Q"))))))]
                       REPLY_TEMPERATURE) :: rest.
Proof.
  apply (message_after_reset_has_no_memory demo_cfg (always (lit "B"))
           (Update 1 None) (Update 1 (Some (lit "Q"))) ten_turn_world).
  reflexivity.
Defined.

(** X15. On a successful startup the model name is [OPENAI_MODEL] whenever
    that variable is set, even to the empty string, and ["gpt-4o-mini"] only
    when it is absent. When no usable bot token is found the error names the
    bot token, whether or not the API key is there; the API key is reported
    only once a bot token has been found. *)
Theorem startup_model_and_error_order
    (OpenAI : gmap string str → str → result openai_client)
    (environ : gmap string str) :
  (∀ c, startup OpenAI environ = Ok c →
        MODEL c = match environ !! "OPENAI_MODEL"%string with
                  | Some m => m
                  | None => lit "gpt-4o-mini"
                  end)
  ∧ (env_nonempty environ "BOT_TOKEN" || env_nonempty environ "TELEGRAM_TOKEN" = false →
     startup OpenAI environ
     = Raised (RuntimeError
         (lit "Missing BOT_TOKEN (Telegram token). Add it in Render Environment Variables.")))
  ∧ (env_nonempty environ "BOT_TOKEN" || env_nonempty environ "TELEGRAM_TOKEN" = true →
     env_nonempty environ "OPENAI_API_KEY" = false →
     startup OpenAI environ
     = Raised (RuntimeError
         (lit "Missing OPENAI_API_KEY. Add it in Render Environment Variables."))).
Proof.
  unfold startup, env_nonempty, py_or.
  destruct (environ !! "BOT_TOKEN"%string) as [[|c1 t1]|];
    destruct (environ !! "TELEGRAM_TOKEN"%string) as [[|c2 t2]|];
    destruct (environ !! "OPENAI_API_KEY"%string) as [[|c3 t3]|];
    cbn [orb andb];
    (split;
     [ intros c Hc;
       first [ discriminate Hc
             | revert Hc; destruct (OpenAI environ _) as [cl|e]; intros Hc;
               [ injection Hc as <-; cbn [MODEL];
                 destruct (environ !! "OPENAI_MODEL"%string); reflexivity
               | discriminate Hc ] ]
     | split;
       [ intros H; first [discriminate H | reflexivity]
       | intros H1 H2; first [discriminate H1 | discriminate H2 | reflexivity] ] ]).
Qed.

Example startup_empty_model_name :
  MODEL <$> match startup OpenAI_accepting
                    (<[ "OPENAI_MODEL"%string := [] ]> environ_complete) with
            | Ok c => Some c
            | Raised _ => None
            end
  = Some [].
Proof. vm_compute. reflexivity. Qed.

(** ** A failed message followed by another one *)

Lemma reply_messages_ends_with_user (w : world) (u : Z) (text : str) :
  ∃ pre, reply_messages w u text = pre ++ [Message user text].
Proof.
  unfold reply_messages, MAX_TURNS. rewrite slice_last_snoc, map_app.
  cbn [map fst snd]. rewrite !app_assoc. eauto.
Qed.

(** X16. A message on which the engine fails is not rolled back: the next
    request for the same user carries the failed message's user turn right
    before the new one, two user turns in a row. *)
Theorem failed_message_stays_in_next_request
    (cfg : config) (engine1 engine2 : request → completion) (upd1 upd2 : update)
    (w : world) (e : exn) :
  effective_user upd2 = effective_user upd1 →
  extracted (engine1 (Request (MODEL cfg)
               (reply_messages w (effective_user upd1)
                  (strip (default [] (message_text upd1))))
               REPLY_TEMPERATURE)) = Raised e →
  ∃ r1 r2 pre rest,
    trace (run cfg [Text upd1 engine1; Text upd2 engine2] w)
    = trace w ++ Completion r1 :: Completion r2 :: rest
    ∧ messages r2
      = pre ++ [Message user (strip (default [] (message_text upd1)));
                Message user (strip (default [] (message_text upd2)))].
Proof.
  intros Hu Hfail. rewrite !run_cons.
  change (step cfg w (Text upd1 engine1)) with (handle_message cfg engine1 upd1 w).2.
  rewrite (handle_message_engine_failure cfg engine1 upd1 w e Hfail). cbn [snd].
  set (text1 := strip (default [] (message_text upd1))).
  set (text2 := strip (default [] (message_text upd2))).
  set (r1 := Request _ _ _). set (w1 := World _ _ _).
  change (run cfg [] ?x) with x.
  change (step cfg w1 (Text upd2 engine2)) with (handle_message cfg engine2 upd2 w1).2.
  rewrite handle_message_eq, reply_request_eq. fold text2. rewrite Hu.
  assert (Hm : ∃ pre, reply_messages w1 (effective_user upd1) text2
                      = pre ++ [Message user text1; Message user text2]).
  { assert (HT : stored_turns w1 (effective_user upd1)
                 = slice_last MAX_TURNS
                     (stored_turns w (effective_user upd1) ++ [(user, text1)])).
    { unfold stored_turns at 1, w1. cbn [USER_TURNS]. by rewrite lookup_insert_eq. }
    unfold reply_messages. rewrite HT, slice_last_window. unfold MAX_TURNS.
    rewrite slice_last_snoc, drop_app_le by (rewrite length_app; cbn [length]; lia).
    rewrite <- app_assoc.
    change ([(user, text1)] ++ [(user, text2)]) with [(user, text1); (user, text2)].
    rewrite map_app. cbn [map fst snd]. rewrite !app_assoc. eauto. }
  destruct Hm as [pre Hm].
  exists r1, (Request (MODEL cfg) (reply_messages w1 (effective_user upd1) text2)
                REPLY_TEMPERATURE), pre.
  destruct (extracted (engine2 _)) as [answer|e2]; cbn [snd].
  - exists [ReplyText (effective_user upd2) answer KEYBOARD].
    rewrite after_answer_eq, reply_request_eq. fold text2. rewrite Hu.
    cbn [trace w1 messages]. split; [by rewrite <- app_assoc|done].
  - exists []. unfold after_request, log. rewrite reply_request_eq. fold text2.
    rewrite Hu. cbn [trace w1 messages after_user set_turns].
    split; [by rewrite <- app_assoc|done].
Qed.

Lemma failed_message_stays_in_next_request_witness :
  ∃ r1 r2 pre rest,
    trace (run demo_cfg [Text (Update 1 (Some (lit "Q1"))) (broken (APIError 500));
                         Text (Update 1 (Some (lit "Q2"))) (always (lit "B"))]
             empty_world)
    = trace empty_world ++ Completion r1 :: Completion r2 :: rest
    ∧ messages r2
      = pre ++ [Message user (strip (default [] (message_text (Update 1 (Some (lit "Q1"))))));
                Message user (strip (default [] (message_text (Update 1 (Some (lit "Q2"))))))].
Proof.
  apply (failed_message_stays_in_next_request demo_cfg (broken (APIError 500))
           (always (lit "B")) (Update 1 (Some (lit "Q1"))) (Update 1 (Some (lit "Q2")))
           empty_world (APIError 500)); reflexivity.
Defined.
